(** * ntuity-collector: a shallow embedding of cmd/ntuity-collector/main.go

    The program polls one site's energy-flow snapshot from the ntuity API once
    a minute and republishes nine of its values as Prometheus gauges.

    The development follows the source file top to bottom:
    - the pieces of the Go runtime and of the libraries the program calls
      (fmt, unicode/utf8, net/textproto, net/url, net/http, encoding/json,
      client_golang's prometheus and promhttp), the pure ones each in a
      module named after its package;
    - the data types [MetricValue] and [EnergyFlow];
    - [retrieveEnergyFlow], [startNtuityMetricsCollector] with its polling
      loop, and [main], written in a small monad that threads the process
      state (gauge store, registry, event trace) and stops on [os.Exit] or on
      a panic;
    - the properties of the specification, proved about these definitions.

    Go strings are byte strings, as are Rocq's; a [float64] is a primitive
    binary64 float; an [int] is a [Z]. *)

From Stdlib Require Import ZArith String Ascii List Lia.
From Stdlib Require Import Floats.PrimFloat.
From stdpp Require Import base option strings list gmap.

Set Warnings "-inexact-float,-register-all".
Local Open Scope string_scope.
Local Open Scope Z_scope.
Local Open Scope list_scope.

(** ** Bytes and strings *)

Definition byte_val (c : ascii) : Z := Z.of_N (N_of_ascii c).

Definition byte_of (n : Z) : ascii := ascii_of_N (Z.to_N n).

Definition in_range (lo hi : Z) (c : ascii) : bool :=
  (lo <=? byte_val c) && (byte_val c <=? hi).

Definition is_lower (c : ascii) : bool := in_range 97 122 c.
Definition is_upper (c : ascii) : bool := in_range 65 90 c.
Definition is_digit (c : ascii) : bool := in_range 48 57 c.

Definition to_upper (c : ascii) : ascii :=
  if is_lower c then byte_of (byte_val c - 32) else c.

Definition to_lower (c : ascii) : ascii :=
  if is_upper c then byte_of (byte_val c + 32) else c.

Fixpoint string_forall (p : ascii -> bool) (s : string) : bool :=
  match s with
  | EmptyString => true
  | String c rest => p c && string_forall p rest
  end.

Fixpoint string_exists (p : ascii -> bool) (s : string) : bool :=
  match s with
  | EmptyString => false
  | String c rest => p c || string_exists p rest
  end.

(** Go's [len] on a string. *)
Definition len (s : string) : Z := Z.of_nat (String.length s).

(** ** Package fmt *)

Module fmt.

Fixpoint extra (a : list string) : string :=
  match a with
  | [] => EmptyString
  | [arg] => "string=" +:+ arg
  | arg :: a' => "string=" +:+ arg +:+ ", " +:+ extra a'
  end.

(** [fmt.Sprintf] for string operands.  The verbs the program uses are [%s]
    and [%v] (an [error] operand is printed through its [Error] method, so it
    is passed here as that text).  A verb without operand prints
    [%!v(MISSING)], another verb applied to a string prints
    [%!c(string=...)], [%%] prints a percent sign, and operands that are left
    over are listed after [%!(EXTRA], as fmt documents. *)
Fixpoint Sprintf (format : string) (a : list string) : string :=
  match format with
  | EmptyString =>
      match a with
      | [] => EmptyString
      | _ :: _ => "%!(EXTRA " +:+ extra a +:+ ")"
      end
  | String "%" (String verb rest) =>
      if Ascii.eqb verb "%" then String "%" (Sprintf rest a)
      else match a with
           | [] => "%!" +:+ String verb "(MISSING)" +:+ Sprintf rest []
           | arg :: a' =>
               if Ascii.eqb verb "s" || Ascii.eqb verb "v"
               then arg +:+ Sprintf rest a'
               else "%!" +:+ String verb "(string=" +:+ arg +:+ ")" +:+ Sprintf rest a'
           end
  | String c rest => String c (Sprintf rest a)
  end.

End fmt.

(** ** Package unicode/utf8 *)

Module utf8.

(** The first byte of an encoding fixes how many continuation bytes follow
    and the range of the first of them (which excludes overlong forms,
    surrogates and values above U+10FFFF); the others are in 0x80..0xBF. *)
Definition lead (c : ascii) : option (nat * Z * Z) :=
  let b := byte_val c in
  if b <? 128 then Some (0%nat, 0, 0)
  else if (194 <=? b) && (b <=? 223) then Some (1%nat, 128, 191)
  else if b =? 224 then Some (2%nat, 160, 191)
  else if (225 <=? b) && (b <=? 236) then Some (2%nat, 128, 191)
  else if b =? 237 then Some (2%nat, 128, 159)
  else if (238 <=? b) && (b <=? 239) then Some (2%nat, 128, 191)
  else if b =? 240 then Some (3%nat, 144, 191)
  else if (241 <=? b) && (b <=? 243) then Some (3%nat, 128, 191)
  else if b =? 244 then Some (3%nat, 128, 143)
  else None.

Fixpoint valid_from (pending : nat) (lo hi : Z) (s : string) : bool :=
  match s with
  | EmptyString => Nat.eqb pending 0
  | String c rest =>
      match pending with
      | O => match lead c with
             | Some (n, lo', hi') => valid_from n lo' hi' rest
             | None => false
             end
      | S p => in_range lo hi c && valid_from p 128 191 rest
      end
  end.

(** [utf8.ValidString]. *)
Definition ValidString (s : string) : bool := valid_from 0 0 0 s.

End utf8.

(** ** The error interface

    The program only ever formats an error with [%v], that is through its
    [Error] method.  The constructors are the dynamic types of the errors
    that reach it. *)

Inductive error :=
| errorString (s : string)
    (* errors.New and fmt.Errorf *)
| url_Error (Op URL : string) (Err : error)
    (* *url.Error, from url.Parse and from Client.Do *)
| json_SyntaxError (msg : string)
    (* *json.SyntaxError *)
| json_UnmarshalTypeError (Value Struct Field Type_ : string)
    (* *json.UnmarshalTypeError *)
| time_ParseError (msg : string)
    (* the error of Time.UnmarshalJSON *)
| AlreadyRegisteredError.
    (* prometheus.AlreadyRegisteredError *)

(** ** JSON texts

    [json.Unmarshal] first checks the whole input against the JSON grammar and
    only then walks it, storing values into the target.  The walk is modelled
    on the syntax tree of the input.  Member names are unquoted, as the walk
    compares them with the field names; a number keeps its literal, which is
    converted according to the type of the field that receives it; a string
    keeps the text between its quotes, which is all [Time.UnmarshalJSON]
    looks at (the program has no string field). *)

Inductive JSON :=
| JNull
| JBool (b : bool)
| JNumber (lit : string)
| JString (text : string)
| JArray (elems : list JSON)
| JObject (members : list (string * JSON)).

(** ** What is taken from the Go runtime as given

    - [time_Time] is [time.Time], [time_zero] its zero value and [time_parse] the
      RFC 3339 parser behind [Time.UnmarshalJSON], which answers with a time
      or with the message of a parse error;
    - [ParseFloat lit] is [strconv.ParseFloat(lit, 64)] on a JSON number
      literal: the nearest float64, or [None] when the value is out of range;
    - [Quote] is [strconv.Quote];
    - [scan] is the syntax check of encoding/json together with the reading
      of the tokens: the syntax tree of a well-formed text, or the message of
      the syntax error;
    - [url_rest] stands for the checks of [url.Parse] that follow the one for
      control characters (escapes, host, port): the error, or [None] when the
      URL parses. *)

Class GoRuntime := {
  time_Time : Type;
  time_zero : time_Time;
  time_parse : string -> string + time_Time;
  ParseFloat : string -> option float;
  Quote : string -> string;
  scan : string -> string + JSON;
  url_rest : string -> option error;
}.

(** ** Package net/textproto *)

Module textproto.

(** The token characters of RFC 7230. *)
Definition validHeaderFieldByte (c : ascii) : bool :=
  is_lower c || is_upper c || is_digit c
  || string_exists (Ascii.eqb c) "!#$%&'*+-.^_`|~".

Fixpoint canonical (upper : bool) (s : string) : string :=
  match s with
  | EmptyString => EmptyString
  | String c rest =>
      String (if upper then to_upper c else to_lower c)
             (canonical (Ascii.eqb c "-") rest)
  end.

(** [textproto.CanonicalMIMEHeaderKey]: the first letter and every letter
    after a hyphen in upper case, the others in lower case; a key with a
    space or a byte that is no token character is returned as it is. *)
Definition CanonicalMIMEHeaderKey (s : string) : string :=
  if string_forall validHeaderFieldByte s then canonical true s else s.

End textproto.

(** ** Package net/url *)

Module url.

Definition isCTL (c : ascii) : bool := (byte_val c <? 32) || (byte_val c =? 127).

Definition stringContainsCTLByte (s : string) : bool := string_exists isCTL s.

(** The part of a URL before its fragment: [strings.Cut(rawURL, "#")]. *)
Fixpoint beforeFragment (s : string) : string :=
  match s with
  | EmptyString => EmptyString
  | String c rest => if Ascii.eqb c "#" then EmptyString else String c (beforeFragment rest)
  end.

Section with_runtime.
Context {rt : GoRuntime}.

(** [url.Parse], as far as the caller sees it: the error, if any. *)
Definition Parse (rawURL : string) : option error :=
  let u := beforeFragment rawURL in
  if stringContainsCTLByte u
  then Some (url_Error "parse" u (errorString "net/url: invalid control character in URL"))
  else url_rest rawURL.
End with_runtime.

End url.

(** ** Package net/http *)

Module http.

(** [http.Header] is a map from canonical keys to the values added for them. *)
Record Request := {
  Method : string;
  URL : string;
  Header : gmap string (list string);
}.

(** [Header.Add]. *)
Definition Header_Add (key value : string) (h : gmap string (list string))
  : gmap string (list string) :=
  let k := textproto.CanonicalMIMEHeaderKey key in
  <[k := (default [] (h !! k) ++ [value])%list]> h.

Definition Request_Header_Add (key value : string) (req : Request) : Request :=
  {| Method := Method req; URL := URL req; Header := Header_Add key value (Header req) |}.

Definition validMethod (method : string) : bool :=
  (0 <? len method) && string_forall textproto.validHeaderFieldByte method.

(** What the transport hands back for one request: an error, or a response
    whose body yields the bytes read and possibly a read error
    ([ioutil.ReadAll]). *)
Record Response := {
  StatusCode : Z;
  Body : string * option error;
}.

Inductive DoResult :=
| DoError (err : error)
| DoResponse (res : Response).

Section with_runtime.
Context {rt : GoRuntime}.

(** [http.NewRequest(method, url, nil)]: a nil request and an error for an
    invalid method or a URL that does not parse. *)
Definition NewRequest (method url : string) : option Request * option error :=
  let method := if String.eqb method "" then "GET" else method in
  if negb (validMethod method)
  then (None, Some (errorString (fmt.Sprintf "net/http: invalid method %s" [Quote method])))
  else match url.Parse url with
       | Some e => (None, Some e)
       | None => (Some {| Method := method; URL := url; Header := ∅ |}, None)
       end.
End with_runtime.

End http.

Section error_text.
Context {rt : GoRuntime}.

(** The [Error] method. *)
Fixpoint Error (e : error) : string :=
  match e with
  | errorString s => s
  | url_Error op u err => op +:+ " " +:+ Quote u +:+ ": " +:+ Error err
  | json_SyntaxError msg => msg
  | json_UnmarshalTypeError v s f t =>
      if String.eqb s "" && String.eqb f ""
      then "json: cannot unmarshal " +:+ v +:+ " into Go value of type " +:+ t
      else "json: cannot unmarshal " +:+ v +:+ " into Go struct field "
           +:+ s +:+ "." +:+ f +:+ " of type " +:+ t
  | time_ParseError msg => msg
  | AlreadyRegisteredError => "duplicate metrics collector registration attempted"
  end.
End error_text.

(** ** The process: state, events and the monad of the program

    The gauge vectors are objects shared between the polling loop, which
    writes them through its local variables, and the registry, through which
    the metrics handler reads them.  The store [vectors] holds them under
    their fully-qualified names (the ten vectors of the program have ten
    different names, [vec_names_distinct]), and a handle on a vector or on
    one of its gauges is the key under which the store holds it. *)

(** [prometheus.Opts]; [GaugeOpts] and [CounterOpts] are this type. *)
Record Opts := {
  Namespace : string;
  Subsystem : string;
  Name : string;
  Help : string;
}.

Inductive ValueType :=
| CounterValue
| GaugeValue.

(** What a [GaugeVec] and a [CounterVec] have in common, their [MetricVec]. *)
Record MetricVec := {
  fqName : string;
  help : string;
  variableLabels : list string;
  valueType : ValueType;
}.

Record Gauge := {
  vec : string;
  labelValues : list string;
}.

(** What the process does that can be seen from outside it, or that a
    property talks about, in the order in which it happens. *)
Inductive Event :=
| EvLog (msg : string)            (* log.Printf *)
| EvDo (req : http.Request)       (* http.DefaultClient.Do *)
| EvClose                         (* res.Body.Close *)
| EvSet (g : Gauge) (v : float)   (* Gauge.Set *)
| EvSleep (d : Z)                 (* time.Sleep *)
| EvHandle (pattern : string)     (* http.Handle *)
| EvGo                            (* a go statement *)
| EvListen (addr : string).       (* http.ListenAndServe *)

Record State := {
  vectors : gmap string (gmap (list string) float);
  registry : list MetricVec;
  events : list Event;
}.

Definition initial : State := {| vectors := ∅; registry := []; events := [] |}.

(** A computation returns, or ends the process through [os.Exit], or
    panics. *)
Inductive Outcome (A : Type) :=
| Return (a : A)
| Exit (code : Z)
| Panic (msg : string).

Arguments Return {A} a.
Arguments Exit {A} code.
Arguments Panic {A} msg.

Definition M (A : Type) : Type := State -> Outcome A * State.

Definition ret {A} (a : A) : M A := fun st => (Return a, st).

Definition bind {A B} (m : M A) (k : A -> M B) : M B :=
  fun st =>
    match m st with
    | (Return a, st') => k a st'
    | (Exit code, st') => (Exit code, st')
    | (Panic msg, st') => (Panic msg, st')
    end.

Declare Scope go_scope.
Delimit Scope go_scope with go.
Notation "x <- m ;; k" := (bind m (fun x => k))
  (at level 100, m at next level, right associativity) : go_scope.
Notation "m ;; k" := (bind m (fun _ => k))
  (at level 100, right associativity) : go_scope.
Local Open Scope go_scope.

Definition panic {A} (msg : string) : M A := fun st => (Panic msg, st).

Definition emit (e : Event) : M unit :=
  fun st => (Return tt,
             {| vectors := vectors st; registry := registry st;
                events := events st ++ [e] |}).

(** A nil pointer is [None]; using it panics. *)
Definition nilDereference : string :=
  "runtime error: invalid memory address or nil pointer dereference".

Definition deref {A} (p : option A) : M A :=
  match p with
  | Some a => ret a
  | None => panic nilDereference
  end.

Definition log_Printf (msg : string) : M unit := emit (EvLog msg).

Definition os_Exit {A} (code : Z) : M A := fun st => (Exit code, st).

Definition time_Second : Z := 1000000000.

Definition time_Sleep (d : Z) : M unit := emit (EvSleep d).

(** [http.DefaultClient.Do]: the request goes out, and the transport's answer
    [ans] comes back. *)
Definition Client_Do (ans : http.DoResult) (req : http.Request) : M http.DoResult :=
  emit (EvDo req) ;; ret ans.

Definition Body_Close : M unit := emit EvClose.

(** ** Package prometheus (client_golang) *)

Definition BuildFQName (namespace subsystem name : string) : string :=
  if String.eqb name "" then ""
  else if negb (String.eqb namespace "") && negb (String.eqb subsystem "")
       then namespace +:+ "_" +:+ subsystem +:+ "_" +:+ name
  else if negb (String.eqb namespace "") then namespace +:+ "_" +:+ name
  else if negb (String.eqb subsystem "") then subsystem +:+ "_" +:+ name
  else name.

(** [prometheus.NewGaugeVec] and [prometheus.NewCounterVec]: a vector
    without children. *)
Definition NewGaugeVec (opts : Opts) (labelNames : list string) : MetricVec :=
  {| fqName := BuildFQName (Namespace opts) (Subsystem opts) (Name opts);
     help := Help opts;
     variableLabels := labelNames;
     valueType := GaugeValue |}.

Definition NewCounterVec (opts : Opts) (labelNames : list string) : MetricVec :=
  {| fqName := BuildFQName (Namespace opts) (Subsystem opts) (Name opts);
     help := Help opts;
     variableLabels := labelNames;
     valueType := CounterValue |}.

Definition head_ok (p : ascii -> bool) (s : string) : bool :=
  match s with
  | EmptyString => false
  | String c _ => p c
  end.

Definition is_letter_ (c : ascii) : bool := is_lower c || is_upper c || Ascii.eqb c "_".

(** Metric names match [[a-zA-Z_:][a-zA-Z0-9_:]*]. *)
Definition IsValidMetricName (n : string) : bool :=
  head_ok (fun c => is_letter_ c || Ascii.eqb c ":") n
  && string_forall (fun c => is_letter_ c || is_digit c || Ascii.eqb c ":") n.

(** Label names match [[a-zA-Z_][a-zA-Z0-9_]*] and do not start with two
    underscores. *)
Definition checkLabelName (l : string) : bool :=
  head_ok is_letter_ l
  && string_forall (fun c => is_letter_ c || is_digit c) l
  && negb (String.prefix "__" l).

Definition validDesc (c : MetricVec) : bool :=
  IsValidMetricName (fqName c)
  && forallb checkLabelName (variableLabels c)
  && bool_decide (NoDup (variableLabels c)).

Definition sameDimensions (c c' : MetricVec) : bool :=
  String.eqb (help c) (help c')
  && bool_decide (variableLabels c = variableLabels c').

(** [Registry.Register]: an error for an invalid descriptor, for a name that
    is registered with other label names or another help string, and for a
    collector that is registered already. *)
Definition Register (c : MetricVec) : M (option error) :=
  fun st =>
    if negb (validDesc c)
    then (Return (Some (errorString "descriptor is invalid")), st)
    else match List.find (fun c' => String.eqb (fqName c') (fqName c)) (registry st) with
         | Some c' =>
             if sameDimensions c c'
             then (Return (Some AlreadyRegisteredError), st)
             else (Return (Some (errorString
                     "a previously registered descriptor with the same fully-qualified name has different label names or a different help string")),
                   st)
         | None =>
             (Return None,
              {| vectors := vectors st; registry := registry st ++ [c];
                 events := events st |})
         end.

Section Program.
Context {rt : GoRuntime}.

Definition validateLabelValues (vals : list string) (expected : nat) : option error :=
  if negb (Nat.eqb (length vals) expected)
  then Some (errorString "inconsistent label cardinality")
  else if forallb utf8.ValidString vals then None
  else Some (errorString "label value is not valid UTF-8").

(** [Registry.MustRegister]: registers the collectors in turn and panics on
    the first error. *)
Fixpoint MustRegister (cs : list MetricVec) : M unit :=
  match cs with
  | [] => ret tt
  | c :: cs' =>
      err <- Register c ;;
      match err with
      | Some e => panic (Error e)
      | None => MustRegister cs'
      end
  end.

(** The children of a vector: one gauge per tuple of label values. *)
Definition children (st : State) (name : string) : gmap (list string) float :=
  default ∅ (vectors st !! name).

(** [WithLabelValues] of a [GaugeVec] or [CounterVec]: the child for the
    label values, created with value 0 at the first use; panics when the number of values is not
    the number of labels or a value is not valid UTF-8. *)
Definition WithLabelValues (v : MetricVec) (lvs : list string) : M Gauge :=
  match validateLabelValues lvs (length (variableLabels v)) with
  | Some e => panic (Error e)
  | None =>
      fun st =>
        let g := {| vec := fqName v; labelValues := lvs |} in
        match children st (fqName v) !! lvs with
        | Some _ => (Return g, st)
        | None =>
            (Return g,
             {| vectors := <[fqName v := <[lvs := 0%float]> (children st (fqName v))]> (vectors st);
                registry := registry st;
                events := events st |})
        end
  end.

(** [Gauge.Set]. *)
Definition Gauge_Set (g : Gauge) (val : float) : M unit :=
  fun st =>
    (Return tt,
     {| vectors := <[vec g := <[labelValues g := val]> (children st (vec g))]> (vectors st);
        registry := registry st;
        events := events st ++ [EvSet g val] |}).

(** What a scrape reads for one gauge: [None] when the vector has no child
    for the label values. *)
Definition gaugeValue (st : State) (name : string) (lvs : list string) : option float :=
  children st name !! lvs.

Record MetricFamily := {
  family : MetricVec;
  metrics : list (list string * float);
}.

Definition hasMetrics (mf : MetricFamily) : bool :=
  match metrics mf with
  | [] => false
  | _ :: _ => true
  end.

(** [Registry.Gather]: the registered vectors with their children; a vector
    without children contributes no family.  (The order of the families in
    the exposition is not represented.) *)
Definition Gather (st : State) : list MetricFamily :=
  List.filter hasMetrics
    (map (fun c => {| family := c; metrics := map_to_list (children st (fqName c)) |})
         (registry st)).

(** The handler of [promhttp.HandlerFor]: status 200 and the families
    gathered from the current state. *)
Definition ServeMetrics (st : State) : Z * list MetricFamily := (200, Gather st).

(** ** The data types of the program *)

Record MetricValue := {
  Value : option float;
  Time : time_Time;
}.

Record EnergyFlow := {
  PowerConsumption : MetricValue;
  PowerConsumptionCalc : MetricValue;
  PowerProduction : MetricValue;
  PowerStorage : MetricValue;
  PowerGrid : MetricValue;
  PowerChargingstations : MetricValue;
  PowerHeating : MetricValue;
  PowerAppliances : MetricValue;
  StateOfCharge : MetricValue;
  SelfSufficiency : MetricValue;
  ConsumersTotalCount : Z;
  ConsumersOnlineCount : Z;
  ProducersTotalCount : Z;
  ProducersOnlineCount : Z;
  StoragesTotalCount : Z;
  StoragesOnlineCount : Z;
  HeatingTotalCount : Z;
  HeatingsOnlineCount : Z;
  ChargingPointsTotalCount : Z;
  ChargingPointsOnlineCount : Z;
  GirdsTotalCount : Z;
  GridsOnlineCount : Z;
}.

Definition zeroMetricValue : MetricValue := {| Value := None; Time := time_zero |}.

(** The zero value of [EnergyFlow], which [var flow EnergyFlow] declares. *)
Definition zeroEnergyFlow : EnergyFlow :=
  Build_EnergyFlow
    zeroMetricValue zeroMetricValue zeroMetricValue zeroMetricValue zeroMetricValue
    zeroMetricValue zeroMetricValue zeroMetricValue zeroMetricValue zeroMetricValue
    0 0 0 0 0 0 0 0 0 0 0 0.

(** The fields of [EnergyFlow], as reflection enumerates them. *)
Inductive MetricField :=
| F_PowerConsumption
| F_PowerConsumptionCalc
| F_PowerProduction
| F_PowerStorage
| F_PowerGrid
| F_PowerChargingstations
| F_PowerHeating
| F_PowerAppliances
| F_StateOfCharge
| F_SelfSufficiency.

Inductive CountField :=
| F_ConsumersTotalCount
| F_ConsumersOnlineCount
| F_ProducersTotalCount
| F_ProducersOnlineCount
| F_StoragesTotalCount
| F_StoragesOnlineCount
| F_HeatingTotalCount
| F_HeatingsOnlineCount
| F_ChargingPointsTotalCount
| F_ChargingPointsOnlineCount
| F_GirdsTotalCount
| F_GridsOnlineCount.

Inductive Field :=
| metric (m : MetricField)
| count (c : CountField).

#[export] Instance MetricField_eq_dec : EqDecision MetricField.
Proof. solve_decision. Defined.

(** The names given by the [json] struct tags. *)
Definition metricTag (m : MetricField) : string :=
  match m with
  | F_PowerConsumption => "power_consumption"
  | F_PowerConsumptionCalc => "power_consumption_calc"
  | F_PowerProduction => "power_production"
  | F_PowerStorage => "power_storage"
  | F_PowerGrid => "power_grid"
  | F_PowerChargingstations => "power_charging_stations"
  | F_PowerHeating => "power_heating"
  | F_PowerAppliances => "power_appliances"
  | F_StateOfCharge => "state_of_charge"
  | F_SelfSufficiency => "self_sufficiency"
  end.

Definition countTag (c : CountField) : string :=
  match c with
  | F_ConsumersTotalCount => "consumers_total_count"
  | F_ConsumersOnlineCount => "consumers_online_count"
  | F_ProducersTotalCount => "producers_total_count"
  | F_ProducersOnlineCount => "producers_online_count"
  | F_StoragesTotalCount => "storages_total_count"
  | F_StoragesOnlineCount => "storages_online_count"
  | F_HeatingTotalCount => "heatings_total_count"
  | F_HeatingsOnlineCount => "heatings_online_count"
  | F_ChargingPointsTotalCount => "charging_points_total_count"
  | F_ChargingPointsOnlineCount => "charging_points_online_count"
  | F_GirdsTotalCount => "grids_total_count"
  | F_GridsOnlineCount => "grids_online_count"
  end.

Definition tag (f : Field) : string :=
  match f with
  | metric m => metricTag m
  | count c => countTag c
  end.

Definition fields : list Field :=
  [metric F_PowerConsumption;
   metric F_PowerConsumptionCalc;
   metric F_PowerProduction;
   metric F_PowerStorage;
   metric F_PowerGrid;
   metric F_PowerChargingstations;
   metric F_PowerHeating;
   metric F_PowerAppliances;
   metric F_StateOfCharge;
   metric F_SelfSufficiency;
   count F_ConsumersTotalCount;
   count F_ConsumersOnlineCount;
   count F_ProducersTotalCount;
   count F_ProducersOnlineCount;
   count F_StoragesTotalCount;
   count F_StoragesOnlineCount;
   count F_HeatingTotalCount;
   count F_HeatingsOnlineCount;
   count F_ChargingPointsTotalCount;
   count F_ChargingPointsOnlineCount;
   count F_GirdsTotalCount;
   count F_GridsOnlineCount].

Definition getMetric (m : MetricField) (flow : EnergyFlow) : MetricValue :=
  match m with
  | F_PowerConsumption => PowerConsumption flow
  | F_PowerConsumptionCalc => PowerConsumptionCalc flow
  | F_PowerProduction => PowerProduction flow
  | F_PowerStorage => PowerStorage flow
  | F_PowerGrid => PowerGrid flow
  | F_PowerChargingstations => PowerChargingstations flow
  | F_PowerHeating => PowerHeating flow
  | F_PowerAppliances => PowerAppliances flow
  | F_StateOfCharge => StateOfCharge flow
  | F_SelfSufficiency => SelfSufficiency flow
  end.

Definition getCount (c : CountField) (flow : EnergyFlow) : Z :=
  match c with
  | F_ConsumersTotalCount => ConsumersTotalCount flow
  | F_ConsumersOnlineCount => ConsumersOnlineCount flow
  | F_ProducersTotalCount => ProducersTotalCount flow
  | F_ProducersOnlineCount => ProducersOnlineCount flow
  | F_StoragesTotalCount => StoragesTotalCount flow
  | F_StoragesOnlineCount => StoragesOnlineCount flow
  | F_HeatingTotalCount => HeatingTotalCount flow
  | F_HeatingsOnlineCount => HeatingsOnlineCount flow
  | F_ChargingPointsTotalCount => ChargingPointsTotalCount flow
  | F_ChargingPointsOnlineCount => ChargingPointsOnlineCount flow
  | F_GirdsTotalCount => GirdsTotalCount flow
  | F_GridsOnlineCount => GridsOnlineCount flow
  end.

Definition setMetric (m : MetricField) (x : MetricValue) (flow : EnergyFlow) : EnergyFlow :=
  let (m0, m1, m2, m3, m4, m5, m6, m7, m8, m9, c0, c1, c2, c3, c4, c5, c6, c7, c8, c9, c10, c11) := flow in
  match m with
  | F_PowerConsumption =>
      Build_EnergyFlow x m1 m2 m3 m4 m5 m6 m7 m8 m9 c0 c1 c2 c3 c4 c5 c6 c7 c8 c9 c10 c11
  | F_PowerConsumptionCalc =>
      Build_EnergyFlow m0 x m2 m3 m4 m5 m6 m7 m8 m9 c0 c1 c2 c3 c4 c5 c6 c7 c8 c9 c10 c11
  | F_PowerProduction =>
      Build_EnergyFlow m0 m1 x m3 m4 m5 m6 m7 m8 m9 c0 c1 c2 c3 c4 c5 c6 c7 c8 c9 c10 c11
  | F_PowerStorage =>
      Build_EnergyFlow m0 m1 m2 x m4 m5 m6 m7 m8 m9 c0 c1 c2 c3 c4 c5 c6 c7 c8 c9 c10 c11
  | F_PowerGrid =>
      Build_EnergyFlow m0 m1 m2 m3 x m5 m6 m7 m8 m9 c0 c1 c2 c3 c4 c5 c6 c7 c8 c9 c10 c11
  | F_PowerChargingstations =>
      Build_EnergyFlow m0 m1 m2 m3 m4 x m6 m7 m8 m9 c0 c1 c2 c3 c4 c5 c6 c7 c8 c9 c10 c11
  | F_PowerHeating =>
      Build_EnergyFlow m0 m1 m2 m3 m4 m5 x m7 m8 m9 c0 c1 c2 c3 c4 c5 c6 c7 c8 c9 c10 c11
  | F_PowerAppliances =>
      Build_EnergyFlow m0 m1 m2 m3 m4 m5 m6 x m8 m9 c0 c1 c2 c3 c4 c5 c6 c7 c8 c9 c10 c11
  | F_StateOfCharge =>
      Build_EnergyFlow m0 m1 m2 m3 m4 m5 m6 m7 x m9 c0 c1 c2 c3 c4 c5 c6 c7 c8 c9 c10 c11
  | F_SelfSufficiency =>
      Build_EnergyFlow m0 m1 m2 m3 m4 m5 m6 m7 m8 x c0 c1 c2 c3 c4 c5 c6 c7 c8 c9 c10 c11
  end.

Definition setCount (c : CountField) (x : Z) (flow : EnergyFlow) : EnergyFlow :=
  let (m0, m1, m2, m3, m4, m5, m6, m7, m8, m9, c0, c1, c2, c3, c4, c5, c6, c7, c8, c9, c10, c11) := flow in
  match c with
  | F_ConsumersTotalCount =>
      Build_EnergyFlow m0 m1 m2 m3 m4 m5 m6 m7 m8 m9 x c1 c2 c3 c4 c5 c6 c7 c8 c9 c10 c11
  | F_ConsumersOnlineCount =>
      Build_EnergyFlow m0 m1 m2 m3 m4 m5 m6 m7 m8 m9 c0 x c2 c3 c4 c5 c6 c7 c8 c9 c10 c11
  | F_ProducersTotalCount =>
      Build_EnergyFlow m0 m1 m2 m3 m4 m5 m6 m7 m8 m9 c0 c1 x c3 c4 c5 c6 c7 c8 c9 c10 c11
  | F_ProducersOnlineCount =>
      Build_EnergyFlow m0 m1 m2 m3 m4 m5 m6 m7 m8 m9 c0 c1 c2 x c4 c5 c6 c7 c8 c9 c10 c11
  | F_StoragesTotalCount =>
      Build_EnergyFlow m0 m1 m2 m3 m4 m5 m6 m7 m8 m9 c0 c1 c2 c3 x c5 c6 c7 c8 c9 c10 c11
  | F_StoragesOnlineCount =>
      Build_EnergyFlow m0 m1 m2 m3 m4 m5 m6 m7 m8 m9 c0 c1 c2 c3 c4 x c6 c7 c8 c9 c10 c11
  | F_HeatingTotalCount =>
      Build_EnergyFlow m0 m1 m2 m3 m4 m5 m6 m7 m8 m9 c0 c1 c2 c3 c4 c5 x c7 c8 c9 c10 c11
  | F_HeatingsOnlineCount =>
      Build_EnergyFlow m0 m1 m2 m3 m4 m5 m6 m7 m8 m9 c0 c1 c2 c3 c4 c5 c6 x c8 c9 c10 c11
  | F_ChargingPointsTotalCount =>
      Build_EnergyFlow m0 m1 m2 m3 m4 m5 m6 m7 m8 m9 c0 c1 c2 c3 c4 c5 c6 c7 x c9 c10 c11
  | F_ChargingPointsOnlineCount =>
      Build_EnergyFlow m0 m1 m2 m3 m4 m5 m6 m7 m8 m9 c0 c1 c2 c3 c4 c5 c6 c7 c8 x c10 c11
  | F_GirdsTotalCount =>
      Build_EnergyFlow m0 m1 m2 m3 m4 m5 m6 m7 m8 m9 c0 c1 c2 c3 c4 c5 c6 c7 c8 c9 x c11
  | F_GridsOnlineCount =>
      Build_EnergyFlow m0 m1 m2 m3 m4 m5 m6 m7 m8 m9 c0 c1 c2 c3 c4 c5 c6 c7 c8 c9 c10 x
  end.

(** ** Package encoding/json, for the two struct types of the program *)

(** A member name matches a field when both are equal after case folding
    (an exact match is preferred, and the tags of [EnergyFlow] are pairwise
    different after folding, so at most one field matches).  Folding maps
    the ASCII letters to upper case, and U+017F (long s, bytes C5 BF) and
    U+212A (Kelvin sign, bytes E2 84 AA) to S and K; no other character
    folds to an ASCII one. *)
Fixpoint foldName (s : string) : string :=
  match s with
  | EmptyString => EmptyString
  | String c rest =>
      match rest with
      | String c2 rest2 =>
          if (byte_val c =? 197) && (byte_val c2 =? 191)
          then String "S" (foldName rest2)
          else match rest2 with
               | String c3 rest3 =>
                   if (byte_val c =? 226) && (byte_val c2 =? 132) && (byte_val c3 =? 170)
                   then String "K" (foldName rest3)
                   else String (to_upper c) (foldName rest)
               | EmptyString => String (to_upper c) (foldName rest)
               end
      | EmptyString => String (to_upper c) EmptyString
      end
  end.

Definition nameMatches (name key : string) : bool :=
  String.eqb (foldName name) (foldName key).

Definition findField (key : string) : option Field :=
  List.find (fun f => nameMatches (tag f) key) fields.

(** The decoder keeps the first type error it meets and goes on. *)
Definition saveError (e : error) (saved : option error) : option error :=
  match saved with
  | Some _ => saved
  | None => Some e
  end.

Definition kindOf (j : JSON) : string :=
  match j with
  | JNull => "null"
  | JBool _ => "bool"
  | JNumber _ => "number"
  | JString _ => "string"
  | JArray _ => "array"
  | JObject _ => "object"
  end.

Fixpoint digits (acc : Z) (s : string) : option Z :=
  match s with
  | EmptyString => Some acc
  | String c rest =>
      if is_digit c then digits (acc * 10 + (byte_val c - 48)) rest else None
  end.

(** [strconv.ParseInt(lit, 10, 64)]; an [int] has 64 bits. *)
Definition ParseInt (lit : string) : option Z :=
  let '(neg, body) :=
    match lit with
    | String "-" rest => (true, rest)
    | String "+" rest => (false, rest)
    | _ => (false, lit)
    end in
  if String.eqb body "" then None
  else match digits 0 body with
       | Some n =>
           let v := if neg then - n else n in
           if (- 2 ^ 63 <=? v) && (v <? 2 ^ 63) then Some v else None
       | None => None
       end.

(** Storing into the [*float64] of [MetricValue.Value]: [null] makes the
    pointer nil; anything else first makes it point to a float64 (a new
    one, 0, when it was nil), which a number in range then sets. *)
Definition store_Value (path : string) (j : JSON) (p : option float)
    (saved : option error) : option float * option error :=
  match j with
  | JNull => (None, saved)
  | JNumber lit =>
      match ParseFloat lit with
      | Some f => (Some f, saved)
      | None =>
          (Some (default 0%float p),
           saveError (json_UnmarshalTypeError ("number " +:+ lit) "MetricValue"
                        (path +:+ ".value") "float64") saved)
      end
  | _ =>
      (Some (default 0%float p),
       saveError (json_UnmarshalTypeError (kindOf j) "MetricValue"
                    (path +:+ ".value") "float64") saved)
  end.

(** Storing into [MetricValue.Time] goes through [Time.UnmarshalJSON],
    whose error stops the walk. *)
Definition store_Time (j : JSON) (t : time_Time) : error + time_Time :=
  match j with
  | JNull => inr t
  | JString text =>
      match time_parse text with
      | inl msg => inl (time_ParseError msg)
      | inr t' => inr t'
      end
  | _ => inl (time_ParseError "Time.UnmarshalJSON: input is not a JSON string")
  end.

Definition store_int (name : string) (j : JSON) (n : Z) (saved : option error)
  : Z * option error :=
  match j with
  | JNull => (n, saved)
  | JNumber lit =>
      match ParseInt lit with
      | Some k => (k, saved)
      | None =>
          (n, saveError (json_UnmarshalTypeError ("number " +:+ lit) "EnergyFlow"
                           name "int") saved)
      end
  | _ => (n, saveError (json_UnmarshalTypeError (kindOf j) "EnergyFlow" name "int") saved)
  end.

(** The members of an object stored into a [MetricValue], in the order of
    the text: a later member for the same field stores over an earlier
    one, a member that matches no field is skipped. *)
Fixpoint object_MetricValue (path : string) (members : list (string * JSON))
    (mv : MetricValue) (saved : option error) : error + (MetricValue * option error) :=
  match members with
  | [] => inr (mv, saved)
  | (key, j) :: rest =>
      if nameMatches "value" key then
        let '(p, saved') := store_Value path j (Value mv) saved in
        object_MetricValue path rest {| Value := p; Time := Time mv |} saved'
      else if nameMatches "time" key then
        match store_Time j (Time mv) with
        | inl e => inl e
        | inr t => object_MetricValue path rest {| Value := Value mv; Time := t |} saved
        end
      else object_MetricValue path rest mv saved
  end.

Definition store_MetricValue (path : string) (j : JSON) (mv : MetricValue)
    (saved : option error) : error + (MetricValue * option error) :=
  match j with
  | JNull => inr (mv, saved)
  | JObject members => object_MetricValue path members mv saved
  | _ =>
      inr (mv, saveError (json_UnmarshalTypeError (kindOf j) "EnergyFlow" path
                            "main.MetricValue") saved)
  end.

Fixpoint object_EnergyFlow (members : list (string * JSON)) (flow : EnergyFlow)
    (saved : option error) : error + (EnergyFlow * option error) :=
  match members with
  | [] => inr (flow, saved)
  | (key, j) :: rest =>
      match findField key with
      | None => object_EnergyFlow rest flow saved
      | Some (metric m) =>
          match store_MetricValue (metricTag m) j (getMetric m flow) saved with
          | inl e => inl e
          | inr (mv, saved') => object_EnergyFlow rest (setMetric m mv flow) saved'
          end
      | Some (count c) =>
          let '(n, saved') := store_int (countTag c) j (getCount c flow) saved in
          object_EnergyFlow rest (setCount c n flow) saved'
      end
  end.

(** [json.Unmarshal(data, &flow)]: the error, or the flow as stored.  (With
    an error, what the walk has stored so far stays in a variable that
    [retrieveEnergyFlow] drops.) *)
Definition json_Unmarshal (data : string) (flow : EnergyFlow) : error + EnergyFlow :=
  match scan data with
  | inl msg => inl (json_SyntaxError msg)
  | inr JNull => inr flow
  | inr (JObject members) =>
      match object_EnergyFlow members flow None with
      | inl e => inl e
      | inr (flow', Some e) => inl e
      | inr (flow', None) => inr flow'
      end
  | inr j => inl (json_UnmarshalTypeError (kindOf j) "" "" "main.EnergyFlow")
  end.

(** ** The program *)

Definition baseURL : string := "https://api.ntuity.io/v1/sites/%s/energy-flow/latest".

(** The flags after [flag.Parse] and the environment of the process. *)
Record Config := {
  addr : string;
  siteID : string;
  environ : gmap string string;
}.

Definition os_Getenv (cfg : Config) (key : string) : string :=
  default "" (environ cfg !! key).

(** [retrieveEnergyFlow]; [ans] is what the transport answers to the
    request.  The error of [http.NewRequest] is dropped and the request
    used as it is.  The deferred [Close] runs at each return that follows
    it. *)
Definition retrieveEnergyFlow (ans : http.DoResult) (siteURL apiKey : string)
  : M (option EnergyFlow * option error) :=
  let '(req, _) := http.NewRequest "GET" siteURL in
  r <- deref req ;;
  let r := http.Request_Header_Add "accept" "application/json" r in
  let r := http.Request_Header_Add "Authorization" (fmt.Sprintf "Bearer %s" [apiKey]) r in
  res <- Client_Do ans r ;;
  match res with
  | http.DoError err => ret (None, Some err)
  | http.DoResponse res =>
      let '(bs, err) := http.Body res in
      match err with
      | Some err => Body_Close ;; ret (None, Some err)
      | None =>
          match json_Unmarshal bs zeroEnergyFlow with
          | inl err => Body_Close ;; ret (None, Some err)
          | inr flow => Body_Close ;; ret (Some flow, None)
          end
      end
  end.

(** The gauge vectors that [startNtuityMetricsCollector] creates.  Creating
    one has no effect on the state, so they are written as constants. *)
Definition powerConsumption : MetricVec :=
  NewGaugeVec
    {| Namespace := "ntuity"; Subsystem := "";
       Name := "power_consumption";
       Help := "Power of all consumers, e.g. Appliances, CPs, HPs" |}
    ["site"].

Definition powerConsumptionCalc : MetricVec :=
  NewGaugeVec
    {| Namespace := "ntuity"; Subsystem := "";
       Name := "power_consumption_calc";
       Help := "Calculated power of all consumers, e.g. Appliances, CPs, HPs" |}
    ["site"].

Definition powerProduction : MetricVec :=
  NewGaugeVec
    {| Namespace := "ntuity"; Subsystem := "";
       Name := "power_production";
       Help := "Power of all producers, e.g. PVs" |}
    ["site"].

Definition powerStorage : MetricVec :=
  NewGaugeVec
    {| Namespace := "ntuity"; Subsystem := "";
       Name := "power_storage";
       Help := "Power from + (=discharching) or to - (=charging) the storages" |}
    ["site"].

Definition powerGrid : MetricVec :=
  NewGaugeVec
    {| Namespace := "ntuity"; Subsystem := "";
       Name := "power_grid";
       Help := "Power from + or to - the grid" |}
    ["site"].

Definition powerChargingStations : MetricVec :=
  NewGaugeVec
    {| Namespace := "ntuity"; Subsystem := "";
       Name := "power_charging_stations";
       Help := "Power from + or to - the grid" |}
    ["site"].

Definition powerHeating : MetricVec :=
  NewGaugeVec
    {| Namespace := "ntuity"; Subsystem := "";
       Name := "power_heating";
       Help := "Power of all heating devices" |}
    ["site"].

Definition powerAppliances : MetricVec :=
  NewGaugeVec
    {| Namespace := "ntuity"; Subsystem := "";
       Name := "power_appliances";
       Help := "Power of all appliances (difference between total consumption and sum of all other sub-consumer)" |}
    ["site"].

Definition stateOfCharge : MetricVec :=
  NewGaugeVec
    {| Namespace := "ntuity"; Subsystem := "";
       Name := "state_of_charge";
       Help := "State of charge of all storages" |}
    ["site"].

Definition selfSufficiency : MetricVec :=
  NewGaugeVec
    {| Namespace := "ntuity"; Subsystem := "";
       Name := "self_sufficiency";
       Help := "A performance or fitness value about the current energy flow (based on power)" |}
    ["site"].

(** The nine [if] statements of the loop in [startNtuityMetricsCollector]:
    each sets a gauge to the value of a field, or to 0 when the field has
    none. *)
Definition publish (siteID : string) (flow : EnergyFlow) : M unit :=
  match Value (PowerConsumptionCalc flow) with
  | Some x => g <- WithLabelValues powerConsumptionCalc [siteID] ;; Gauge_Set g x
  | None => g <- WithLabelValues powerConsumptionCalc [siteID] ;; Gauge_Set g 0%float
  end ;;
  match Value (PowerProduction flow) with
  | Some x => g <- WithLabelValues powerProduction [siteID] ;; Gauge_Set g x
  | None => g <- WithLabelValues powerProduction [siteID] ;; Gauge_Set g 0%float
  end ;;
  match Value (PowerStorage flow) with
  | Some x => g <- WithLabelValues powerStorage [siteID] ;; Gauge_Set g x
  | None => g <- WithLabelValues powerStorage [siteID] ;; Gauge_Set g 0%float
  end ;;
  match Value (PowerGrid flow) with
  | Some x => g <- WithLabelValues powerGrid [siteID] ;; Gauge_Set g x
  | None => g <- WithLabelValues powerGrid [siteID] ;; Gauge_Set g 0%float
  end ;;
  match Value (PowerChargingstations flow) with
  | Some x => g <- WithLabelValues powerChargingStations [siteID] ;; Gauge_Set g x
  | None => g <- WithLabelValues powerChargingStations [siteID] ;; Gauge_Set g 0%float
  end ;;
  match Value (PowerHeating flow) with
  | Some x => g <- WithLabelValues powerHeating [siteID] ;; Gauge_Set g x
  | None => g <- WithLabelValues powerHeating [siteID] ;; Gauge_Set g 0%float
  end ;;
  match Value (PowerAppliances flow) with
  | Some x => g <- WithLabelValues powerAppliances [siteID] ;; Gauge_Set g x
  | None => g <- WithLabelValues powerAppliances [siteID] ;; Gauge_Set g 0%float
  end ;;
  match Value (StateOfCharge flow) with
  | Some x => g <- WithLabelValues stateOfCharge [siteID] ;; Gauge_Set g x
  | None => g <- WithLabelValues stateOfCharge [siteID] ;; Gauge_Set g 0%float
  end ;;
  match Value (SelfSufficiency flow) with
  | Some x => g <- WithLabelValues selfSufficiency [siteID] ;; Gauge_Set g x
  | None => g <- WithLabelValues selfSufficiency [siteID] ;; Gauge_Set g 0%float
  end.

(** One round of the loop: fetch, log and exit on an error, publish, sleep. *)
Definition cycle (siteID siteURL apiKey : string) (ans : http.DoResult) : M unit :=
  r <- retrieveEnergyFlow ans siteURL apiKey ;;
  let '(flow, err) := r in
  match err with
  | Some e =>
      log_Printf (fmt.Sprintf "Failed to collect metrics: %v" [Error e]) ;;
      os_Exit 1
  | None => ret tt
  end ;;
  flow <- deref flow ;;
  publish siteID flow ;;
  time_Sleep (time_Second * 60).

(** The loop [for { ... }] of the goroutine, run for as many rounds as
    there are answers of the transport in [answers]; when they are used up
    the loop is still running. *)
Fixpoint collector (siteID siteURL apiKey : string) (answers : list http.DoResult)
  : M unit :=
  match answers with
  | [] => ret tt
  | ans :: rest =>
      cycle siteID siteURL apiKey ans ;;
      collector siteID siteURL apiKey rest
  end.

Definition siteURL_of (cfg : Config) : string := fmt.Sprintf baseURL [siteID cfg].

(** The goroutine that [startNtuityMetricsCollector] starts: the loop with
    the site URL and the API key that the closure has captured. *)
Definition goroutine (cfg : Config) (answers : list http.DoResult) : M unit :=
  collector (siteID cfg) (siteURL_of cfg) (os_Getenv cfg "NTUITY_API_KEY") answers.

(** [startNtuityMetricsCollector]: the check of the API key, the
    registration of the ten vectors, and the go statement, after which
    [goroutine] runs next to the caller. *)
Definition startNtuityMetricsCollector (cfg : Config) : M (option error) :=
  let apiKey := os_Getenv cfg "NTUITY_API_KEY" in
  if len apiKey =? 0 then ret (Some (errorString (fmt.Sprintf "no api key given" [])))
  else
    MustRegister
      [powerConsumption; powerConsumptionCalc; powerProduction; powerStorage;
       powerGrid; powerChargingStations; powerHeating; powerAppliances;
       stateOfCharge; selfSufficiency] ;;
    emit EvGo ;;
    ret None.

(** [prometheus.NewRegistry]. *)
Definition NewRegistry : M unit :=
  fun st => (Return tt, {| vectors := vectors st; registry := []; events := events st |}).

(** The error counter of the metrics handler. *)
Definition errCnt : MetricVec :=
  NewCounterVec
    {| Namespace := ""; Subsystem := "";
       Name := "promhttp_metric_handler_errors_total";
       Help := "Total number of internal errors encountered by the promhttp metric handler." |}
    ["cause"].

(** [promhttp.HandlerFor(reg, promhttp.HandlerOpts{Registry: reg})]: with a
    registry in the options, the handler creates the two children of its
    error counter and registers it there; it takes the collector that is
    registered already and panics on another error.  The handler itself is
    [ServeMetrics]. *)
Definition promhttp_HandlerFor : M unit :=
  WithLabelValues errCnt ["gathering"] ;;
  WithLabelValues errCnt ["encoding"] ;;
  err <- Register errCnt ;;
  match err with
  | Some AlreadyRegisteredError => ret tt
  | Some e => panic (Error e)
  | None => ret tt
  end.

Definition http_Handle (pattern : string) : M unit := emit (EvHandle pattern).

(** [http.ListenAndServe] binds the listener and serves; it does not return
    while the server runs. *)
Definition http_ListenAndServe (a : string) : M unit := emit (EvListen a).

(** [main], after [flag.Parse] has set the flags of [cfg]. *)
Definition main (cfg : Config) : M unit :=
  (if len (siteID cfg) =? 0
   then log_Printf (fmt.Sprintf "No site ID given" []) ;; os_Exit 1
   else ret tt) ;;
  NewRegistry ;;
  promhttp_HandlerFor ;;
  http_Handle "/metrics" ;;
  log_Printf (fmt.Sprintf "Listening on %s" [addr cfg]) ;;
  err <- startNtuityMetricsCollector cfg ;;
  match err with
  | Some e =>
      log_Printf (fmt.Sprintf "Failed to start metrics collector: %v" [Error e]) ;;
      os_Exit 1
  | None => http_ListenAndServe (addr cfg)
  end.

End Program.

(** ** Vocabulary of the properties *)

Section Vocabulary.
Context {rt : GoRuntime}.

(** The nine fields that the loop publishes; [power_consumption] and the
    counters are not among them. *)
Definition published : list MetricField :=
  [F_PowerConsumptionCalc; F_PowerProduction; F_PowerStorage; F_PowerGrid;
   F_PowerChargingstations; F_PowerHeating; F_PowerAppliances; F_StateOfCharge;
   F_SelfSufficiency].

(** The gauge that corresponds to a field: the one of the same name in the
    namespace [ntuity]. *)
Definition gaugeName (m : MetricField) : string := "ntuity_" +:+ metricTag m.

(** What a gauge is set to for a field: its value, or 0 when it is absent. *)
Definition reading (m : MetricField) (flow : EnergyFlow) : float :=
  default 0%float (Value (getMetric m flow)).

(** The state after one [Set] on the gauge [lvs] of the vector [name]. *)
Definition setGauge (name : string) (lvs : list string) (v : float) (st : State) : State :=
  {| vectors := <[name := <[lvs := v]> (children st name)]> (vectors st);
     registry := registry st;
     events := events st ++ [EvSet {| vec := name; labelValues := lvs |} v] |}.

(** The state after the nine writes of a round, in the order of the source. *)
Definition setAll (siteID : string) (flow : EnergyFlow) (st : State) : State :=
  fold_left (fun s m => setGauge (gaugeName m) [siteID] (reading m flow) s) published st.

(** The events of a list of writes. *)
Definition writes (siteID : string) (flow : EnergyFlow) : list Event :=
  map (fun m => EvSet {| vec := gaugeName m; labelValues := [siteID] |} (reading m flow))
      published.

(** The requests among some events. *)
Definition requests (evs : list Event) : list http.Request :=
  omap (fun e => match e with EvDo req => Some req | _ => None end) evs.

Definition isSet (e : Event) : bool :=
  match e with
  | EvSet _ _ => true
  | _ => false
  end.

(** The events that matter for the pace of the loop. *)
Inductive Tick :=
| fetch
| pause (d : Z).

Definition ticks (evs : list Event) : list Tick :=
  omap (fun e => match e with
                 | EvDo _ => Some fetch
                 | EvSleep d => Some (pause d)
                 | _ => None
                 end) evs.



(** Two snapshots agree on what is published. *)
Definition agreeOnPublished (f1 f2 : EnergyFlow) : Prop :=
  forall m, In m published -> Value (getMetric m f1) = Value (getMetric m f2).

(** A snapshot with its raw [power_consumption] and its twelve counters
    replaced. *)
Definition withUnpublished (pc : MetricValue) (counts : CountField -> Z)
    (flow : EnergyFlow) : EnergyFlow :=
  Build_EnergyFlow
    pc (PowerConsumptionCalc flow) (PowerProduction flow) (PowerStorage flow)
    (PowerGrid flow) (PowerChargingstations flow) (PowerHeating flow)
    (PowerAppliances flow) (StateOfCharge flow) (SelfSufficiency flow)
    (counts F_ConsumersTotalCount) (counts F_ConsumersOnlineCount)
    (counts F_ProducersTotalCount) (counts F_ProducersOnlineCount)
    (counts F_StoragesTotalCount) (counts F_StoragesOnlineCount)
    (counts F_HeatingTotalCount) (counts F_HeatingsOnlineCount)
    (counts F_ChargingPointsTotalCount) (counts F_ChargingPointsOnlineCount)
    (counts F_GirdsTotalCount) (counts F_GridsOnlineCount).


(** The state with some more events. *)
Definition addEvents (evs : list Event) (st : State) : State :=
  {| vectors := vectors st; registry := registry st; events := events st ++ evs |}.

(** What [retrieveEnergyFlow] returns for an answer of the transport. *)
Definition fetched (ans : http.DoResult) : option EnergyFlow * option error :=
  match ans with
  | http.DoError err => (None, Some err)
  | http.DoResponse res =>
      match (http.Body res).2 with
      | Some err => (None, Some err)
      | None =>
          match json_Unmarshal (http.Body res).1 zeroEnergyFlow with
          | inl err => (None, Some err)
          | inr flow => (Some flow, None)
          end
      end
  end.

(** The body of a response is closed, an error of the transport has none. *)
Definition closing (ans : http.DoResult) : list Event :=
  match ans with
  | http.DoError _ => []
  | http.DoResponse _ => [EvClose]
  end.

(** The request for a URL, with the two headers. *)
Definition requestFor (siteURL apiKey : string) : http.Request :=
  {| http.Method := "GET";
     http.URL := siteURL;
     http.Header := {[ "Accept" := ["application/json"];
                       "Authorization" := ["Bearer " +:+ apiKey] ]} |}.

(** The request that is expected for a site. *)
Definition expectedRequest (site apiKey : string) : http.Request :=
  requestFor ("https://api.ntuity.io/v1/sites/" +:+ site +:+ "/energy-flow/latest") apiKey.

(** The ten vectors in the order in which they are registered. *)
Definition tenVectors : list MetricVec :=
  [powerConsumption; powerConsumptionCalc; powerProduction; powerStorage;
   powerGrid; powerChargingStations; powerHeating; powerAppliances;
   stateOfCharge; selfSufficiency].

(** The only children before the loop writes: the two of the error counter
    of the handler. *)
Definition handlerVectors : gmap string (gmap (list string) float) :=
  {[ fqName errCnt := {[ ["gathering"] := 0%float; ["encoding"] := 0%float ]} ]}.

(** The state in which [main] serves, when it gets there. *)
Definition serving (cfg : Config) : State :=
  {| vectors := handlerVectors;
     registry := errCnt :: tenVectors;
     events := [EvHandle "/metrics";
                EvLog (fmt.Sprintf "Listening on %s" [addr cfg]);
                EvGo;
                EvListen (addr cfg)] |}.




End Vocabulary.


(** ** A runtime and inputs for the examples

    The example runtime keeps a time as its RFC 3339 text and knows the
    texts that the examples use: one response body, one time, one number. *)

Definition quoted (s : string) : string :=
  String (byte_of 34) (s +:+ String (byte_of 34) EmptyString).

Definition example_body : string :=
  "{" +:+ quoted "power_production" +:+ ":{" +:+ quoted "value" +:+ ":5.2,"
  +:+ quoted "time" +:+ ":" +:+ quoted "2024-01-01T00:00:00Z" +:+ "},"
  +:+ quoted "power_storage" +:+ ":{" +:+ quoted "value" +:+ ":null},"
  +:+ quoted "consumers_total_count" +:+ ":3}".

Definition example_tree : JSON :=
  JObject
    [("power_production",
      JObject [("value", JNumber "5.2"); ("time", JString "2024-01-01T00:00:00Z")]);
     ("power_storage", JObject [("value", JNull)]);
     ("consumers_total_count", JNumber "3")].

Definition example_runtime : GoRuntime :=
  {| time_Time := string;
     time_zero := "0001-01-01T00:00:00Z";
     time_parse := fun text =>
       if String.eqb text "2024-01-01T00:00:00Z" then inr text
       else inl "parsing time: cannot parse";
     ParseFloat := fun lit => if String.eqb lit "5.2" then Some 5.2%float else None;
     Quote := quoted;
     scan := fun data =>
       if String.eqb data example_body then inr example_tree
       else inl "invalid character looking for beginning of value";
     url_rest := fun _ => None |}.

Definition example_config : Config :=
  {| addr := ":8080";
     siteID := "X";
     environ := {[ "NTUITY_API_KEY" := "secret" ]} |}.

Definition example_answer : http.DoResult :=
  http.DoResponse {| http.StatusCode := 200; http.Body := (example_body, None) |}.

Definition example_time : @time_Time example_runtime := "2024-01-01T00:00:00Z".

(** The snapshot that the example body decodes to. *)
Definition example_flow : @EnergyFlow example_runtime :=
  setCount F_ConsumersTotalCount 3
    (setMetric F_PowerStorage (@Build_MetricValue example_runtime None time_zero)
       (setMetric F_PowerProduction
          (@Build_MetricValue example_runtime (Some 5.2%float) example_time)
          zeroEnergyFlow)).

(** The same snapshot with another raw power consumption and other
    counters. *)
Definition other_flow : @EnergyFlow example_runtime :=
  withUnpublished (@Build_MetricValue example_runtime (Some 7%float) example_time)
    (fun _ => 9) example_flow.

Definition example_url : string := fmt.Sprintf baseURL ["X"].

(** A response whose body is no JSON text. *)
Definition malformed_answer : http.DoResult :=
  http.DoResponse {| http.StatusCode := 200; http.Body := ("<html>", None) |}.

(** A site identifier with a line feed in it. *)
Definition bad_site : string := String (byte_of 10) "X".

(** ** Package flag, for the two string flags of the program

    [flag.Parse] reads the arguments of the command line one flag at a time.
    An argument that does not begin with a minus sign (or is a lone minus)
    ends the flags, as does the argument [--], which is consumed. A flag is
    written with one or two minus signs; its value follows an equals sign or
    is the next argument. A name that is not defined, a value that is
    missing and a name that begins with a minus or an equals sign are
    errors: the command line of the program exits on them with status 2
    after a message on the standard error, which the events of the process
    do not show; [-h] and [-help] print the usage and exit with status 0. *)

Module flag.

(** The values of the flags [listen-address] and [site-id]. *)
Record Flags := {
  listen_address : string;
  site_id : string;
}.

(** The defaults of the two [flag.String] declarations. *)
Definition defaults : Flags := {| listen_address := ":8080"; site_id := "" |}.

(** A name with its value, when the argument holds an equals sign after its
    first character. *)
Fixpoint cut (s : string) : string * option string :=
  match s with
  | EmptyString => (EmptyString, None)
  | String c rest =>
      if Ascii.eqb c "=" then (EmptyString, Some rest)
      else let '(name, value) := cut rest in (String c name, value)
  end.

Definition split (name : string) : string * option string :=
  match name with
  | EmptyString => (EmptyString, None)
  | String c rest => let '(n, value) := cut rest in (String c n, value)
  end.

Inductive Formal :=
| formal_listen_address
| formal_site_id.

Definition lookup (name : string) : option Formal :=
  if String.eqb name "listen-address" then Some formal_listen_address
  else if String.eqb name "site-id" then Some formal_site_id
  else None.

Definition set (f : Formal) (value : string) (fl : Flags) : Flags :=
  match f with
  | formal_listen_address => {| listen_address := value; site_id := site_id fl |}
  | formal_site_id => {| listen_address := listen_address fl; site_id := value |}
  end.

(** The name of the flag in an argument: what follows the one or two minus
    signs; [None] for an argument that ends the flags. *)
Definition flagName (s : string) : option string :=
  match s with
  | String "-" (String c rest) =>
      if Ascii.eqb c "-"
      then (if String.eqb rest "" then None else Some rest)
      else Some (String c rest)
  | _ => None
  end.

Definition badSyntax (name : string) : bool :=
  match name with
  | EmptyString => true
  | String c _ => Ascii.eqb c "-" || Ascii.eqb c "="
  end.

(** The flags after the arguments, or the exit status and the message. *)
Fixpoint parse (args : list string) (fl : Flags) : Flags + Z * string :=
  match args with
  | [] => inl fl
  | s :: rest =>
      match flagName s with
      | None => inl fl
      | Some name =>
          if badSyntax name then inr (2, "bad flag syntax: " +:+ s)
          else
            let '(n, value) := split name in
            match lookup n with
            | None =>
                if String.eqb n "help" || String.eqb n "h"
                then inr (0, "flag: help requested")
                else inr (2, "flag provided but not defined: -" +:+ n)
            | Some f =>
                match value with
                | Some v => parse rest (set f v fl)
                | None =>
                    match rest with
                    | v :: rest' => parse rest' (set f v fl)
                    | [] => inr (2, "flag needs an argument: -" +:+ n)
                    end
                end
            end
      end
  end.

(** [flag.Parse()] on the arguments after the name of the program. *)
Definition Parse (args : list string) : Flags + Z * string := parse args defaults.

End flag.

Section Entry.
Context {rt : GoRuntime}.

(** The program from its command line and environment: [flag.Parse] at the
    head of [main], then the rest of [main]. *)
Definition main_from_args (args : list string) (env : gmap string string) : M unit :=
  match flag.Parse args with
  | inl fl =>
      main {| addr := flag.listen_address fl; siteID := flag.site_id fl; environ := env |}
  | inr (code, _) => os_Exit code
  end.

(** The fetch for [ans] returns the snapshot [flow]. *)
Definition fetches (siteURL apiKey : string) (ans : http.DoResult) (flow : EnergyFlow)
  : Prop :=
  (retrieveEnergyFlow ans siteURL apiKey initial).1 = Return (Some flow, None).

(** A list of answers that all give a snapshot. *)
Definition allFetch (siteURL apiKey : string) (answers : list http.DoResult) : Prop :=
  Forall (fun ans => exists flow, fetches siteURL apiKey ans flow) answers.

(** A response with a body that was read without error. *)
Definition response (code : Z) (body : string) : http.DoResult :=
  http.DoResponse {| http.StatusCode := code; http.Body := (body, None) |}.

(** What a counter accepts: [null] and the integer literals of 64 bits. *)
Definition intAccepted (j : JSON) : bool :=
  match j with
  | JNull => true
  | JNumber lit => bool_decide (is_Some (ParseInt lit))
  | _ => false
  end.

(** What a time accepts: [null] and the strings that [time_parse] reads. *)
Definition timeAccepted (j : JSON) : bool :=
  match j with
  | JNull => true
  | JString text => match time_parse text with inr _ => true | inl _ => false end
  | _ => false
  end.
(** An event without the credential of its request. *)
Definition redact (e : Event) : Event :=
  match e with
  | EvDo req =>
      EvDo {| http.Method := http.Method req;
              http.URL := http.URL req;
              http.Header := delete "Authorization" (http.Header req) |}
  | _ => e
  end.

(** Two states that differ at most in the credentials of the requests that
    were sent. *)
Definition sameButCredential (st1 st2 : State) : Prop :=
  vectors st1 = vectors st2
  /\ registry st1 = registry st2
  /\ map redact (events st1) = map redact (events st2).
End Entry.

(** ** More documents for the examples

    Bodies that the API could send, with their syntax trees, and a runtime
    whose scanner reads them: an error document, a counter with a
    fraction, a time that is no time, and a metric that comes twice. *)

Definition error_body : string :=
  "{" +:+ quoted "message" +:+ ":" +:+ quoted "Unauthorized" +:+ "}".

Definition error_tree : JSON := JObject [("message", JString "Unauthorized")].

Definition bad_counter_body : string :=
  "{" +:+ quoted "consumers_total_count" +:+ ":1.5}".

Definition bad_counter_tree : JSON := JObject [("consumers_total_count", JNumber "1.5")].

Definition bad_time_body : string :=
  "{" +:+ quoted "power_grid" +:+ ":{" +:+ quoted "time" +:+ ":" +:+ quoted "yesterday"
  +:+ "}}".

Definition bad_time_tree : JSON :=
  JObject [("power_grid", JObject [("time", JString "yesterday")])].

Definition repeated_body : string :=
  "{" +:+ quoted "power_grid" +:+ ":{" +:+ quoted "value" +:+ ":null},"
  +:+ quoted "Power_Grid" +:+ ":{" +:+ quoted "value" +:+ ":5.2}}".

Definition repeated_tree : JSON :=
  JObject [("power_grid", JObject [("value", JNull)]);
           ("Power_Grid", JObject [("value", JNumber "5.2")])].

Definition sample_runtime : GoRuntime :=
  {| time_Time := string;
     time_zero := "0001-01-01T00:00:00Z";
     time_parse := @time_parse example_runtime;
     ParseFloat := @ParseFloat example_runtime;
     Quote := quoted;
     scan := fun data =>
       if String.eqb data "null" then inr JNull
       else if String.eqb data error_body then inr error_tree
       else if String.eqb data bad_counter_body then inr bad_counter_tree
       else if String.eqb data bad_time_body then inr bad_time_tree
       else if String.eqb data repeated_body then inr repeated_tree
       else @scan example_runtime data;
     url_rest := fun _ => None |}.

(** The snapshot that the body with the repeated metric decodes to. *)
Definition repeated_flow : @EnergyFlow sample_runtime :=
  setMetric F_PowerGrid
    (@Build_MetricValue sample_runtime (Some 5.2%float) (@time_zero sample_runtime))
    zeroEnergyFlow.

(** A site identifier that is not valid UTF-8: the byte FF. *)
Definition invalid_site : string := String (byte_of 255) EmptyString.

(** * Properties *)

Section Properties.
Context {rt : GoRuntime}.

(** ** The monad *)

Lemma bind_Return {A B} (m : M A) (k : A -> M B) st a st' :
  m st = (Return a, st') -> bind m k st = k a st'.
Proof. intros H. unfold bind. by rewrite H. Qed.

Lemma bind_Exit {A B} (m : M A) (k : A -> M B) st code st' :
  m st = (Exit code, st') -> bind m k st = (Exit code, st').
Proof. intros H. unfold bind. by rewrite H. Qed.

Lemma bind_Panic {A B} (m : M A) (k : A -> M B) st msg st' :
  m st = (Panic msg, st') -> bind m k st = (Panic msg, st').
Proof. intros H. unfold bind. by rewrite H. Qed.

(** ** Gauges *)

Lemma vec_names_distinct : NoDup (map fqName (errCnt :: tenVectors)).
Proof. apply (bool_decide_unpack _). vm_compute. exact I. Qed.

(** The gauge of a field is the vector that the program creates under the
    name of the field. *)
Lemma gaugeName_vectors :
  map gaugeName (F_PowerConsumption :: published) = map fqName tenVectors.
Proof. reflexivity. Qed.

Lemma gaugeValue_setGauge_eq name lvs v st :
  gaugeValue (setGauge name lvs v st) name lvs = Some v.
Proof.
  unfold gaugeValue, setGauge, children. simpl.
  rewrite lookup_insert_eq. simpl. apply lookup_insert_eq.
Qed.

Lemma gaugeValue_setGauge_ne name lvs v st name' lvs' :
  name <> name' \/ lvs <> lvs' ->
  gaugeValue (setGauge name lvs v st) name' lvs' = gaugeValue st name' lvs'.
Proof.
  intros H. unfold gaugeValue, setGauge, children. simpl.
  destruct (decide (name = name')) as [<-|Hn].
  - rewrite lookup_insert_eq. simpl.
    destruct H as [H|H]; [done|]. by rewrite lookup_insert_ne.
  - by rewrite lookup_insert_ne.
Qed.

Lemma vectors_setGauge_other name lvs v st name' :
  name <> name' -> vectors (setGauge name lvs v st) !! name' = vectors st !! name'.
Proof. intros H. unfold setGauge. simpl. by rewrite lookup_insert_ne. Qed.

(** With a label value that is valid UTF-8, getting the gauge of a vector
    with one label and setting it is one write. *)
Lemma set_step (v : MetricVec) site x st :
  utf8.ValidString site = true ->
  length (variableLabels v) = 1%nat ->
  (g <- WithLabelValues v [site] ;; Gauge_Set g x) st
  = (Return tt, setGauge (fqName v) [site] x st).
Proof.
  intros Hu Hl. unfold bind, WithLabelValues, validateLabelValues.
  rewrite Hl. simpl. rewrite Hu. simpl.
  destruct (children st (fqName v) !! [site]) eqn:E.
  - reflexivity.
  - unfold Gauge_Set, setGauge, children. simpl.
    rewrite lookup_insert_eq. simpl.
    by rewrite 2!insert_insert_eq.
Qed.

(** With another label value, getting the gauge panics and nothing is
    written. *)
Lemma set_step_invalid (v : MetricVec) site x st :
  utf8.ValidString site = false ->
  length (variableLabels v) = 1%nat ->
  (g <- WithLabelValues v [site] ;; Gauge_Set g x) st
  = (Panic "label value is not valid UTF-8", st).
Proof.
  intros Hu Hl. unfold bind, WithLabelValues, validateLabelValues.
  rewrite Hl. simpl. rewrite Hu. reflexivity.
Qed.

(** ** One round of the loop *)

Lemma publish_field (v : MetricVec) site (o : option float) st :
  utf8.ValidString site = true ->
  length (variableLabels v) = 1%nat ->
  match o with
  | Some x => g <- WithLabelValues v [site] ;; Gauge_Set g x
  | None => g <- WithLabelValues v [site] ;; Gauge_Set g 0%float
  end st
  = (Return tt, setGauge (fqName v) [site] (default 0%float o) st).
Proof. intros Hu Hl. destruct o; simpl; by apply set_step. Qed.

Lemma publish_valid site flow st :
  utf8.ValidString site = true ->
  publish site flow st = (Return tt, setAll site flow st).
Proof.
  intros Hu. unfold publish.
  repeat (erewrite bind_Return; [|by apply publish_field]).
  by rewrite publish_field.
Qed.

Lemma publish_invalid site flow st :
  utf8.ValidString site = false ->
  publish site flow st = (Panic "label value is not valid UTF-8", st).
Proof.
  intros Hu. unfold publish.
  apply bind_Panic. destruct (Value (PowerConsumptionCalc flow)); by apply set_step_invalid.
Qed.

Lemma NewRequest_GET u :
  http.NewRequest "GET" u
  = match url.Parse u with
    | Some e => (None, Some e)
    | None => (Some {| http.Method := "GET"; http.URL := u; http.Header := ∅ |}, None)
    end.
Proof. reflexivity. Qed.

Lemma append_empty_r (s : string) : s +:+ "" = s.
Proof.
  induction s as [|c s IH]; [done|].
  change (String c (s +:+ "") = String c s). by rewrite IH.
Qed.

Lemma Sprintf_Bearer apiKey : fmt.Sprintf "Bearer %s" [apiKey] = "Bearer " +:+ apiKey.
Proof.
  change (fmt.Sprintf "Bearer %s" [apiKey]) with ("Bearer " +:+ apiKey +:+ "").
  by rewrite append_empty_r.
Qed.

Lemma Sprintf_baseURL site :
  fmt.Sprintf baseURL [site]
  = "https://api.ntuity.io/v1/sites/" +:+ site +:+ "/energy-flow/latest".
Proof. reflexivity. Qed.

Lemma headers_added u apiKey :
  http.Request_Header_Add "Authorization" (fmt.Sprintf "Bearer %s" [apiKey])
    (http.Request_Header_Add "accept" "application/json"
       {| http.Method := "GET"; http.URL := u; http.Header := ∅ |})
  = requestFor u apiKey.
Proof.
  rewrite Sprintf_Bearer.
  unfold requestFor, http.Request_Header_Add. simpl. f_equal.
Qed.

(** [retrieveEnergyFlow] panics when the request cannot be built, and
    otherwise sends it and returns what [fetched] says. *)
Lemma retrieve_spec ans siteURL apiKey st :
  retrieveEnergyFlow ans siteURL apiKey st
  = match url.Parse siteURL with
    | Some _ => (Panic nilDereference, st)
    | None =>
        (Return (fetched ans),
         addEvents (EvDo (requestFor siteURL apiKey) :: closing ans) st)
    end.
Proof.
  unfold retrieveEnergyFlow. rewrite NewRequest_GET.
  destruct (url.Parse siteURL) as [e|]; [reflexivity|].
  unfold bind at 1. simpl deref. unfold ret at 1.
  rewrite headers_added.
  unfold bind at 1, Client_Do, bind, emit, ret, fetched, closing, addEvents.
  destruct ans as [err|[code [bs [err|]]]]; simpl; try reflexivity.
  - unfold Body_Close, emit. simpl. by rewrite <- app_assoc.
  - destruct (json_Unmarshal bs zeroEnergyFlow); unfold bind, Body_Close, emit, ret; simpl;
      by rewrite <- app_assoc.
Qed.

Lemma Sprintf_failed text :
  fmt.Sprintf "Failed to collect metrics: %v" [text] = "Failed to collect metrics: " +:+ text.
Proof.
  change (fmt.Sprintf "Failed to collect metrics: %v" [text])
    with ("Failed to collect metrics: " +:+ text +:+ "").
  by rewrite append_empty_r.
Qed.

(** A round of the loop, case by case. *)
Lemma cycle_spec site siteURL apiKey ans st :
  cycle site siteURL apiKey ans st
  = match url.Parse siteURL with
    | Some _ => (Panic nilDereference, st)
    | None =>
        let st1 := addEvents (EvDo (requestFor siteURL apiKey) :: closing ans) st in
        match fetched ans with
        | (_, Some e) =>
            (Exit 1, addEvents [EvLog ("Failed to collect metrics: " +:+ Error e)] st1)
        | (None, None) => (Panic nilDereference, st1)
        | (Some flow, None) =>
            if utf8.ValidString site
            then (Return tt, addEvents [EvSleep (time_Second * 60)] (setAll site flow st1))
            else (Panic "label value is not valid UTF-8", st1)
        end
    end.
Proof.
  unfold cycle. unfold bind at 1. rewrite retrieve_spec.
  destruct (url.Parse siteURL) as [e|]; [reflexivity|].
  cbv zeta. destruct (fetched ans) as [flow [e|]].
  - rewrite Sprintf_failed. by destruct flow.
  - unfold bind at 1. unfold ret at 1. destruct flow as [flow|]; [|reflexivity].
    unfold bind at 1. simpl deref. unfold ret at 1. unfold bind at 1.
    destruct (utf8.ValidString site) eqn:Hu.
    + by rewrite publish_valid.
    + by rewrite publish_invalid.
Qed.

Ltac names_differ := left; intros Hname; vm_compute in Hname; discriminate Hname.

Lemma gaugeValue_addEvents evs st name lvs :
  gaugeValue (addEvents evs st) name lvs = gaugeValue st name lvs.
Proof. reflexivity. Qed.

(** After the nine writes every published gauge holds its reading. *)
Lemma gaugeValue_setAll site flow st m :
  In m published ->
  gaugeValue (setAll site flow st) (gaugeName m) [site] = Some (reading m flow).
Proof.
  unfold setAll, published. simpl fold_left.
  intros Hm. simpl in Hm.
  repeat (destruct Hm as [<-|Hm]; [
    repeat (rewrite gaugeValue_setGauge_ne by names_differ);
    apply gaugeValue_setGauge_eq |]).
  destruct Hm.
Qed.

(** The nine writes leave the other vectors as they are. *)
Lemma vectors_setAll_other site flow st name :
  ~ In name (map gaugeName published) ->
  vectors (setAll site flow st) !! name = vectors st !! name.
Proof.
  unfold setAll, published. simpl fold_left. intros Hn. simpl in Hn.
  repeat (rewrite vectors_setGauge_other; [|intros <-; apply Hn; tauto]).
  reflexivity.
Qed.

Lemma events_setAll site flow st :
  events (setAll site flow st) = events st ++ writes site flow.
Proof.
  unfold setAll, writes, published. simpl.
  repeat rewrite <- app_assoc. reflexivity.
Qed.

Lemma registry_setAll site flow st : registry (setAll site flow st) = registry st.
Proof. reflexivity. Qed.

(** A round whose fetch returns a snapshot. *)
Lemma successful_fetch ans siteURL apiKey st flow st1 :
  retrieveEnergyFlow ans siteURL apiKey st = (Return (Some flow, None), st1) ->
  url.Parse siteURL = None
  /\ fetched ans = (Some flow, None)
  /\ st1 = addEvents (EvDo (requestFor siteURL apiKey) :: closing ans) st.
Proof.
  rewrite retrieve_spec. destruct (url.Parse siteURL); [discriminate|].
  intros H. by simplify_eq.
Qed.

(** A round that returns has fetched a snapshot and ends in the state after
    the nine writes and the pause. *)
Lemma successful_cycle site siteURL apiKey ans st flow st1 st2 :
  retrieveEnergyFlow ans siteURL apiKey st = (Return (Some flow, None), st1) ->
  cycle site siteURL apiKey ans st = (Return tt, st2) ->
  utf8.ValidString site = true
  /\ st2 = addEvents [EvSleep (time_Second * 60)] (setAll site flow st1).
Proof.
  intros (Hp & Hf & ->)%successful_fetch.
  rewrite cycle_spec, Hp. cbv zeta. rewrite Hf.
  destruct (utf8.ValidString site); [|discriminate].
  intros H. by simplify_eq.
Qed.

(** When the fetch returns a snapshot and the site identifier is valid UTF-8,
    the round returns. *)
Lemma cycle_returns site siteURL apiKey ans st flow st1 :
  retrieveEnergyFlow ans siteURL apiKey st = (Return (Some flow, None), st1) ->
  utf8.ValidString site = true ->
  cycle site siteURL apiKey ans st
  = (Return tt, addEvents [EvSleep (time_Second * 60)] (setAll site flow st1)).
Proof.
  intros (Hp & Hf & ->)%successful_fetch Hu.
  rewrite cycle_spec, Hp. cbv zeta. by rewrite Hf, Hu.
Qed.

(** ** The properties of the specification *)

(** C1.  In every successful round of the loop (the fetch returns the
    snapshot [flow] and the round returns), for each of the nine published
    fields: when the snapshot has the value [v] for the field, the gauge of
    that name, for the label value [site], reads exactly [v] after the
    round.  And a round whose fetch returns a snapshot is successful whenever
    the site identifier is valid UTF-8. *)
Theorem present_value_published site siteURL apiKey ans st flow st1 m v :
  retrieveEnergyFlow ans siteURL apiKey st = (Return (Some flow, None), st1) ->
  In m published ->
  Value (getMetric m flow) = Some v ->
  (forall st2,
     cycle site siteURL apiKey ans st = (Return tt, st2) ->
     gaugeValue st2 (gaugeName m) [site] = Some v)
  /\ (utf8.ValidString site = true ->
      exists st2, cycle site siteURL apiKey ans st = (Return tt, st2)).
Proof.
  intros Hf Hm Hv. split.
  - intros st2 Hc.
    destruct (successful_cycle _ _ _ _ _ _ _ _ Hf Hc) as [_ ->].
    rewrite gaugeValue_addEvents, gaugeValue_setAll by done.
    unfold reading. by rewrite Hv.
  - intros Hu. eexists. by apply cycle_returns.
Qed.

(** C2.  In every successful round of the loop, for each of the nine
    published fields: when the snapshot has no value for the field (null),
    the gauge of that name reads 0 after the round, whatever it held before
    (the state [st] before the round is arbitrary, so a value from an earlier
    round is not kept).  And a round whose fetch returns a snapshot is
    successful whenever the site identifier is valid UTF-8. *)
Theorem absent_value_resets_gauge site siteURL apiKey ans st flow st1 m :
  retrieveEnergyFlow ans siteURL apiKey st = (Return (Some flow, None), st1) ->
  In m published ->
  Value (getMetric m flow) = None ->
  (forall st2,
     cycle site siteURL apiKey ans st = (Return tt, st2) ->
     gaugeValue st2 (gaugeName m) [site] = Some 0%float)
  /\ (utf8.ValidString site = true ->
      exists st2, cycle site siteURL apiKey ans st = (Return tt, st2)).
Proof.
  intros Hf Hm Hv. split.
  - intros st2 Hc.
    destruct (successful_cycle _ _ _ _ _ _ _ _ Hf Hc) as [_ ->].
    rewrite gaugeValue_addEvents, gaugeValue_setAll by done.
    unfold reading. by rewrite Hv.
  - intros Hu. eexists. by apply cycle_returns.
Qed.

(** C3.  In every round of the loop whose fetch returns an error [e] (from
    the transport, from reading the body or from decoding it), the process
    logs a message that ends with the text of [e] and exits with status 1;
    the round makes no gauge write, the gauge store is what it was before
    the round, and no later round runs. *)
Theorem fetch_error_exits_without_update site siteURL apiKey ans st flow e st1 :
  retrieveEnergyFlow ans siteURL apiKey st = (Return (flow, Some e), st1) ->
  exists st2,
    cycle site siteURL apiKey ans st = (Exit 1, st2)
    /\ events st2 = events st1 ++ [EvLog ("Failed to collect metrics: " +:+ Error e)]
    /\ (exists evs, events st2 = events st ++ evs /\ Forall (fun ev => isSet ev = false) evs)
    /\ vectors st2 = vectors st
    /\ forall rest, collector site siteURL apiKey (ans :: rest) st = (Exit 1, st2).
Proof.
  intros Hf. pose proof Hf as Hf'. rewrite retrieve_spec in Hf'.
  destruct (url.Parse siteURL) eqn:Hp; [discriminate|].
  injection Hf' as Hans <-.
  assert (cycle site siteURL apiKey ans st
          = (Exit 1, addEvents [EvLog ("Failed to collect metrics: " +:+ Error e)]
                       (addEvents (EvDo (requestFor siteURL apiKey) :: closing ans) st)))
    as Hc.
  { rewrite cycle_spec, Hp. cbv zeta. rewrite Hans. by destruct flow. }
  eexists. split; [exact Hc|]. split; [reflexivity|]. split; [|split; [reflexivity|]].
  - eexists. split; [simpl; by rewrite <- app_assoc|].
    destruct ans; simpl; repeat constructor.
  - intros rest. simpl. by apply bind_Exit.
Qed.

(** The nine writes only read the nine published values. *)
Lemma writes_agree site f1 f2 (l : list MetricField) :
  (forall m, In m l -> Value (getMetric m f1) = Value (getMetric m f2)) ->
  forall st,
    fold_left (fun s m => setGauge (gaugeName m) [site] (reading m f1) s) l st
    = fold_left (fun s m => setGauge (gaugeName m) [site] (reading m f2) s) l st.
Proof.
  induction l as [|m l IH]; intros H st; [reflexivity|].
  simpl.
  assert (reading m f1 = reading m f2) as ->.
  { unfold reading. rewrite (H m); [done|by left]. }
  apply IH. intros m' Hm'. apply H. by right.
Qed.

Lemma setAll_agree site f1 f2 st :
  agreeOnPublished f1 f2 -> setAll site f1 st = setAll site f2 st.
Proof. intros H. by apply writes_agree. Qed.

Lemma publish_spec site flow st :
  publish site flow st
  = if utf8.ValidString site
    then (Return tt, setAll site flow st)
    else (Panic "label value is not valid UTF-8", st).
Proof.
  destruct (utf8.ValidString site) eqn:Hu.
  - by apply publish_valid.
  - by apply publish_invalid.
Qed.

Lemma withUnpublished_agree pc counts flow :
  agreeOnPublished (withUnpublished pc counts flow) flow.
Proof.
  intros m Hm. unfold published in Hm. simpl in Hm.
  repeat (destruct Hm as [<-|Hm]; [reflexivity|]). destruct Hm.
Qed.

(** C4.  The raw [power_consumption] field and the twelve counters of a
    snapshot are never written to a gauge: replacing them by anything changes
    neither the outcome of the publishing nor the state after it; the gauge
    writes of a round are writes of the readings of published fields to the
    gauges of their names; and every other vector, among them the registered
    [ntuity_power_consumption], is left as it was. *)
Theorem unpublished_fields_never_written site flow st :
  (forall pc counts,
     publish site (withUnpublished pc counts flow) st = publish site flow st)
  /\ (exists evs,
        events (publish site flow st).2 = events st ++ evs
        /\ Forall (fun ev => exists m, In m published
                     /\ ev = EvSet {| vec := gaugeName m; labelValues := [site] |}
                                   (reading m flow)) evs)
  /\ (forall name, ~ In name (map gaugeName published) ->
        vectors (publish site flow st).2 !! name = vectors st !! name)
  /\ vectors (publish site flow st).2 !! fqName powerConsumption
     = vectors st !! fqName powerConsumption.
Proof.
  split; [|split; [|split]].
  - intros pc counts. rewrite 2!publish_spec.
    by rewrite (setAll_agree _ _ flow _ (withUnpublished_agree pc counts flow)).
  - rewrite publish_spec. destruct (utf8.ValidString site).
    + exists (writes site flow). split; [apply events_setAll|].
      unfold writes. apply Forall_forall. intros ev Hev%list_elem_of_In.
      apply in_map_iff in Hev as (m & <- & Hm). eauto.
    + exists []. split; [simpl; by rewrite app_nil_r|constructor].
  - intros name Hn. rewrite publish_spec. destruct (utf8.ValidString site); [|done].
    by apply vectors_setAll_other.
  - rewrite publish_spec. destruct (utf8.ValidString site); [|done].
    apply vectors_setAll_other. vm_compute. intros H.
    repeat (destruct H as [H|H]; [discriminate H|]). destruct H.
Qed.

Lemma closing_response ans flow :
  fetched ans = (Some flow, None) -> closing ans = [EvClose].
Proof. by destruct ans. Qed.

(** C10.  The gauge writes of a round depend only on the nine published
    values of the snapshot: for two snapshots that agree on them (and differ
    in their times, their counters or their raw [power_consumption] as they
    like), publishing from the same state has the same outcome and ends in
    the same state, with the same gauge store and the same trace of writes;
    and two rounds from the same state whose fetches return two such
    snapshots have the same outcome and end in the same state. *)
Theorem publish_noninterference site f1 f2 st :
  agreeOnPublished f1 f2 ->
  publish site f1 st = publish site f2 st
  /\ forall siteURL apiKey ans1 ans2 st1 st2,
       retrieveEnergyFlow ans1 siteURL apiKey st = (Return (Some f1, None), st1) ->
       retrieveEnergyFlow ans2 siteURL apiKey st = (Return (Some f2, None), st2) ->
       cycle site siteURL apiKey ans1 st = cycle site siteURL apiKey ans2 st.
Proof.
  intros H. split.
  - rewrite 2!publish_spec. by rewrite (setAll_agree _ _ _ _ H).
  - intros siteURL apiKey ans1 ans2 st1 st2
      (Hp & Hf1 & _)%successful_fetch (_ & Hf2 & _)%successful_fetch.
    rewrite 2!cycle_spec, Hp. cbv zeta. rewrite Hf1, Hf2.
    rewrite (closing_response _ _ Hf1), (closing_response _ _ Hf2).
    by rewrite (setAll_agree _ _ _ _ H).
Qed.

(** ** Start-up *)

Lemma len_zero s : (len s =? 0) = true <-> s = "".
Proof. destruct s; simpl; [done|]. split; [|done]. unfold len. simpl. lia. Qed.

Lemma len_nonzero s : s <> "" -> (len s =? 0) = false.
Proof. intros H. destruct (len s =? 0) eqn:E; [|done]. by apply len_zero in E. Qed.

Lemma main_no_site cfg :
  siteID cfg = "" ->
  main cfg initial = (Exit 1, addEvents [EvLog "No site ID given"] initial).
Proof. intros H. unfold main. rewrite H. reflexivity. Qed.

Lemma main_no_key cfg :
  siteID cfg <> "" ->
  os_Getenv cfg "NTUITY_API_KEY" = "" ->
  main cfg initial
  = (Exit 1,
     {| vectors := handlerVectors;
        registry := [errCnt];
        events := [EvHandle "/metrics";
                   EvLog (fmt.Sprintf "Listening on %s" [addr cfg]);
                   EvLog "Failed to start metrics collector: no api key given"] |}).
Proof.
  intros Hs Hk. unfold main. rewrite (len_nonzero _ Hs).
  unfold startNtuityMetricsCollector. rewrite Hk. reflexivity.
Qed.

(** With a site identifier and an API key [main] gets to serving: no
    registration panics. *)
Lemma main_serves cfg :
  siteID cfg <> "" ->
  os_Getenv cfg "NTUITY_API_KEY" <> "" ->
  main cfg initial = (Return tt, serving cfg).
Proof.
  intros Hs Hk. unfold main. rewrite (len_nonzero _ Hs).
  unfold startNtuityMetricsCollector. rewrite (len_nonzero _ Hk). reflexivity.
Qed.

Lemma main_returns cfg st0 :
  main cfg initial = (Return tt, st0) -> st0 = serving cfg.
Proof.
  destruct (decide (siteID cfg = "")) as [Hs|Hs].
  { by rewrite main_no_site. }
  destruct (decide (os_Getenv cfg "NTUITY_API_KEY" = "")) as [Hk|Hk].
  { by rewrite main_no_key. }
  rewrite main_serves by done. intros H. by simplify_eq.
Qed.

Lemma Gather_addEvents evs st : Gather (addEvents evs st) = Gather st.
Proof. reflexivity. Qed.

(** C5, as the program behaves.  A scrape that is served before the loop has
    made its first gauge write is answered with status 200 and not with an
    error, but no gauge of the program reads 0 in it: the ten vectors are
    registered without a child, so none of them has a value for any label
    value, and the only family of the exposition is the error counter of the
    handler itself; this is so from the start of [main] to the end of the
    first fetch.  (A gauge gets its series for the site when the first round
    sets it, C1 and C2.) *)
Theorem scrape_before_first_write cfg st0 :
  main cfg initial = (Return tt, st0) ->
  registry st0 = errCnt :: tenVectors
  /\ (forall m lvs, gaugeValue st0 (gaugeName m) lvs = None)
  /\ (ServeMetrics st0).1 = 200
  /\ map family (ServeMetrics st0).2 = [errCnt]
  /\ forall ans,
       ServeMetrics
         (retrieveEnergyFlow ans (siteURL_of cfg) (os_Getenv cfg "NTUITY_API_KEY") st0).2
       = ServeMetrics st0.
Proof.
  intros ->%main_returns. split; [reflexivity|]. split; [|split; [reflexivity|split]].
  - intros m lvs. unfold gaugeValue, children.
    assert (vectors (serving cfg) !! gaugeName m = None) as ->; [by destruct m|].
    apply lookup_empty.
  - reflexivity.
  - intros ans. rewrite retrieve_spec. by destruct (url.Parse _).
Qed.

(** ** The pace of the loop *)

Lemma ticks_app evs1 evs2 : ticks (evs1 ++ evs2) = ticks evs1 ++ ticks evs2.
Proof. apply omap_app. Qed.

Lemma requests_app evs1 evs2 : requests (evs1 ++ evs2) = requests evs1 ++ requests evs2.
Proof. apply omap_app. Qed.


Lemma requests_closing ans : requests (closing ans) = [].
Proof. by destruct ans. Qed.

Lemma ticks_writes site flow : ticks (writes site flow) = [].
Proof. reflexivity. Qed.

Lemma requests_writes site flow : requests (writes site flow) = [].
Proof. reflexivity. Qed.

Lemma events_addEvents evs st : events (addEvents evs st) = events st ++ evs.
Proof. reflexivity. Qed.

(** The events of a round: nothing when the request cannot be built;
    otherwise the request, the closing of the body, and then either the nine
    writes and the pause, or the log line, or nothing more. *)
Lemma cycle_events site siteURL apiKey ans st out st' :
  cycle site siteURL apiKey ans st = (out, st') ->
  (url.Parse siteURL <> None /\ out <> Return tt /\ st' = st)
  \/ (url.Parse siteURL = None /\
      exists more,
        events st' = events st ++ EvDo (requestFor siteURL apiKey) :: closing ans ++ more
        /\ requests more = []
        /\ ((out = Return tt /\ ticks more = [pause (time_Second * 60)])
            \/ (out <> Return tt /\ ticks more = []))).
Proof.
  rewrite cycle_spec. destruct (url.Parse siteURL) as [e|].
  { intros H. simplify_eq. by left. }
  cbv zeta. intros H. right. split; [done|].
  destruct (fetched ans) as [[flow|] [e|]]; [|destruct (utf8.ValidString site)| |];
    simplify_eq; rewrite ?events_addEvents, ?events_setAll, ?events_addEvents.
  - exists [EvLog ("Failed to collect metrics: " +:+ Error e)].
    rewrite <- !app_assoc. split; [done|]. split; [done|]. by right.
  - exists (writes site flow ++ [EvSleep (time_Second * 60)]).
    rewrite <- !app_assoc. split; [done|]. split; [|by left].
    by rewrite requests_app, requests_writes.
  - exists []. rewrite app_nil_r. split; [done|]. split; [done|]. by right.
  - exists [EvLog ("Failed to collect metrics: " +:+ Error e)].
    rewrite <- !app_assoc. split; [done|]. split; [done|]. by right.
  - exists []. rewrite app_nil_r. split; [done|]. split; [done|]. by right.
Qed.



(** C9.  [retrieveEnergyFlow] does not return for every site identifier:
    there is a non-empty one (a line feed followed by X) for whose URL
    [http.NewRequest] answers a nil request and an error; the error is
    dropped, and whatever the API key and the transport, the function panics
    on the nil request before anything is sent, instead of returning an
    error.  More generally it panics for every URL that does not parse. *)
Theorem retrieveEnergyFlow_not_total :
  (exists site,
     site <> ""
     /\ (exists e, http.NewRequest "GET" (fmt.Sprintf baseURL [site]) = (None, Some e))
     /\ forall ans apiKey st,
          retrieveEnergyFlow ans (fmt.Sprintf baseURL [site]) apiKey st
          = (Panic nilDereference, st))
  /\ (forall siteURL e ans apiKey st,
        http.NewRequest "GET" siteURL = (None, Some e) ->
        retrieveEnergyFlow ans siteURL apiKey st = (Panic nilDereference, st)).
Proof.
  split.
  - exists bad_site. split; [done|]. split.
    + eexists. reflexivity.
    + intros ans apiKey st. reflexivity.
  - intros siteURL e ans apiKey st H. unfold retrieveEnergyFlow. by rewrite H.
Qed.

(** C7, as the program behaves.  In every round of the loop for which the
    request can be built from the URL of the site, exactly one request is
    sent: a GET to [https://api.ntuity.io/v1/sites/<site>/energy-flow/latest]
    with the header [Accept: application/json] and the header [Authorization]
    set to [Bearer] and the API key, and no other header. *)
Theorem one_get_when_request_builds site apiKey ans st r err out st' :
  http.NewRequest "GET" (fmt.Sprintf baseURL [site]) = (Some r, err) ->
  cycle site (fmt.Sprintf baseURL [site]) apiKey ans st = (out, st') ->
  exists evs,
    events st' = events st ++ evs
    /\ requests evs = [expectedRequest site apiKey].
Proof.
  rewrite NewRequest_GET. intros Hr Hc.
  apply cycle_events in Hc as [(Hp & _)|(_ & more & Hev & Hreq & _)].
  { destruct (url.Parse _); [discriminate|done]. }
  eexists. split; [exact Hev|].
  change (requests (EvDo (requestFor (fmt.Sprintf baseURL [site]) apiKey)
                      :: closing ans ++ more))
    with (requestFor (fmt.Sprintf baseURL [site]) apiKey :: requests (closing ans ++ more)).
  by rewrite requests_app, requests_closing, Hreq.
Qed.

(** ** Decoding *)

Lemma getMetric_setMetric_eq m x flow : getMetric m (setMetric m x flow) = x.
Proof. by destruct m, flow. Qed.



Lemma findField_matches key f : findField key = Some f -> nameMatches (tag f) key = true.
Proof. intros H. by apply find_some in H as [_ H]. Qed.











(** A type error that was kept stays. *)
Lemma saveError_Some e saved : exists e', saveError e saved = Some e'.
Proof. destruct saved; simpl; eauto. Qed.

Lemma store_Value_kept path j p e :
  exists e', (store_Value path j p (Some e)).2 = Some e'.
Proof. destruct j; simpl; eauto. destruct (ParseFloat lit); simpl; eauto. Qed.

Lemma store_int_kept name j n e :
  exists e', (store_int name j n (Some e)).2 = Some e'.
Proof. destruct j; simpl; eauto. destruct (ParseInt lit); simpl; eauto. Qed.

Lemma object_MetricValue_kept path members :
  forall mv e mv' saved',
    object_MetricValue path members mv (Some e) = inr (mv', saved') ->
    exists e', saved' = Some e'.
Proof.
  induction members as [|[key j] members IH]; intros mv e mv' saved' H; simpl in H.
  - simplify_eq. eauto.
  - destruct (nameMatches "value" key).
    + destruct (store_Value_kept path j (Value mv) e) as [e' E].
      destruct (store_Value path j (Value mv) (Some e)) as [p s1]. simpl in E. subst s1.
      by eapply IH.
    + destruct (nameMatches "time" key); [|by eapply IH].
      destruct (store_Time j (Time mv)); [done|]. by eapply IH.
Qed.

Lemma store_MetricValue_kept path j mv e mv' saved' :
  store_MetricValue path j mv (Some e) = inr (mv', saved') -> exists e', saved' = Some e'.
Proof.
  destruct j; simpl; intros H; simplify_eq; eauto.
  by eapply object_MetricValue_kept.
Qed.

Lemma object_EnergyFlow_kept members :
  forall flow e flow' saved',
    object_EnergyFlow members flow (Some e) = inr (flow', saved') ->
    exists e', saved' = Some e'.
Proof.
  induction members as [|[key j] members IH]; intros flow e flow' saved' H; simpl in H.
  - simplify_eq. eauto.
  - destruct (findField key) as [[m|c]|]; [| |by eapply IH].
    + destruct (store_MetricValue _ _ _ _) as [e1|[mv s1]] eqn:E; [done|].
      apply store_MetricValue_kept in E as [e' ->]. by eapply IH.
    + destruct (store_int_kept (countTag c) j (getCount c flow) e) as [e' E].
      destruct (store_int _ _ _ _) as [n s1]. simpl in E. subst s1. by eapply IH.
Qed.










Lemma json_Unmarshal_object data members flow0 :
  scan data = inr (JObject members) ->
  json_Unmarshal data flow0
  = match object_EnergyFlow members flow0 None with
    | inl e => inl e
    | inr (flow', Some e) => inl e
    | inr (flow', None) => inr flow'
    end.
Proof. intros H. unfold json_Unmarshal. by rewrite H. Qed.


End Properties.

(** * The properties on the example inputs *)

#[local] Existing Instance example_runtime.

Lemma present_value_published_witness :
  (exists st2, cycle "X" example_url "secret" example_answer initial = (Return tt, st2))
  /\ gaugeValue (cycle "X" example_url "secret" example_answer initial).2
       "ntuity_power_production" ["X"]
     = Some 5.2%float.
Proof.
  destruct (present_value_published (rt := example_runtime)
              "X" example_url "secret" example_answer initial example_flow
              (retrieveEnergyFlow example_answer example_url "secret" initial).2
              F_PowerProduction 5.2%float) as [Hvalue Hreturns].
  - vm_compute. reflexivity.
  - simpl. tauto.
  - reflexivity.
  - split.
    + apply Hreturns. reflexivity.
    + apply Hvalue. vm_compute. reflexivity.
Defined.

(** The gauge held 3 before the round and reads 0 after it. *)
Lemma absent_value_resets_gauge_witness :
  let before := setGauge "ntuity_power_storage" ["X"] 3%float initial in
  gaugeValue before "ntuity_power_storage" ["X"] = Some 3%float
  /\ (exists st2, cycle "X" example_url "secret" example_answer before = (Return tt, st2))
  /\ gaugeValue (cycle "X" example_url "secret" example_answer before).2
       "ntuity_power_storage" ["X"]
     = Some 0%float.
Proof.
  intros before. split; [reflexivity|].
  destruct (absent_value_resets_gauge (rt := example_runtime)
              "X" example_url "secret" example_answer before example_flow
              (retrieveEnergyFlow example_answer example_url "secret" before).2
              F_PowerStorage) as [Hvalue Hreturns].
  - vm_compute. reflexivity.
  - simpl. tauto.
  - reflexivity.
  - split.
    + apply Hreturns. reflexivity.
    + apply Hvalue. vm_compute. reflexivity.
Defined.

(** A body that is no JSON text: the process exits and the store is as it
    was. *)
Lemma fetch_error_exits_without_update_witness :
  exists st2,
    cycle "X" example_url "secret" malformed_answer initial = (Exit 1, st2)
    /\ vectors st2 = vectors initial.
Proof.
  destruct (fetch_error_exits_without_update (rt := example_runtime)
              "X" example_url "secret" malformed_answer initial None
              (json_SyntaxError "invalid character looking for beginning of value")
              (retrieveEnergyFlow malformed_answer example_url "secret" initial).2)
    as (st2 & Hc & _ & _ & Hg & _).
  - vm_compute. reflexivity.
  - exists st2. split; assumption.
Defined.

Lemma scrape_before_first_write_witness :
  map family (ServeMetrics (main example_config initial).2).2 = [errCnt].
Proof.
  destruct (scrape_before_first_write (rt := example_runtime) example_config
              (main example_config initial).2) as (_ & _ & _ & H & _).
  - vm_compute. reflexivity.
  - exact H.
Defined.

(** C5, as the specification states it, fails: with the example
    configuration [main] gets to serving, and in that state, before any
    round of the loop, the exposition of a scrape has no family but the
    error counter of the handler, the gauge [ntuity_power_production] has no
    value for the site [X], and so not every published gauge reads 0. *)
Lemma scrape_before_first_cycle_reads_no_zero :
  let st0 := (main example_config initial).2 in
  (main example_config initial).1 = Return tt
  /\ map (fun mf => fqName (family mf)) (ServeMetrics st0).2
     = ["promhttp_metric_handler_errors_total"]
  /\ gaugeValue st0 "ntuity_power_production" ["X"] = None
  /\ ~ (forall m, In m published -> gaugeValue st0 (gaugeName m) ["X"] = Some 0%float).
Proof.
  intros st0.
  assert (gaugeValue st0 (gaugeName F_PowerProduction) ["X"] = None) as E.
  { vm_compute. reflexivity. }
  split; [vm_compute; reflexivity|]. split; [vm_compute; reflexivity|].
  split; [exact E|].
  intros H. rewrite H in E; [discriminate E|]. simpl. tauto.
Defined.


Lemma one_get_when_request_builds_witness :
  exists evs,
    events (cycle "X" example_url "secret" example_answer initial).2 = events initial ++ evs
    /\ requests evs = [expectedRequest "X" "secret"].
Proof.
  apply (one_get_when_request_builds (rt := example_runtime)
           "X" "secret" example_answer initial
           {| http.Method := "GET"; http.URL := example_url; http.Header := ∅ |} None
           (cycle "X" example_url "secret" example_answer initial).1).
  - reflexivity.
  - vm_compute. reflexivity.
Defined.

(** C7, as the specification states it, fails: for the site identifier made
    of a line feed and X, the round panics before anything is sent, and its
    events hold no request. *)
Lemma no_request_for_bad_site :
  cycle bad_site (fmt.Sprintf baseURL [bad_site]) "secret" example_answer initial
  = (Panic nilDereference, initial)
  /\ ~ (exists evs,
         events (cycle bad_site (fmt.Sprintf baseURL [bad_site]) "secret"
                   example_answer initial).2
         = events initial ++ evs
         /\ requests evs = [expectedRequest bad_site "secret"]).
Proof.
  split; [reflexivity|].
  intros (evs & Hev & Hreq).
  change (events (cycle bad_site (fmt.Sprintf baseURL [bad_site]) "secret"
                    example_answer initial).2) with (@nil Event) in Hev.
  simpl in Hev. subst evs. discriminate Hreq.
Defined.


Lemma publish_noninterference_witness :
  ConsumersOnlineCount example_flow <> ConsumersOnlineCount other_flow
  /\ publish "X" example_flow initial = publish "X" other_flow initial.
Proof.
  split; [discriminate|].
  destruct (publish_noninterference (rt := example_runtime)
              "X" example_flow other_flow initial) as [H _].
  - intros m Hm. simpl in Hm.
    repeat (destruct Hm as [<-|Hm]; [reflexivity|]). destruct Hm.
  - exact H.
Defined.

(** A site identifier that is not valid UTF-8 (the byte FF): the fetch
    returns the snapshot, and the round panics at the first gauge, with
    nothing written. *)
Lemma invalid_label_panics :
  let site := String (byte_of 255) EmptyString in
  let run := cycle site (fmt.Sprintf baseURL [site]) "secret" example_answer initial in
  run.1 = Panic "label value is not valid UTF-8"
  /\ vectors run.2 = vectors initial.
Proof. split; vm_compute; reflexivity. Qed.

(** * Further properties of the program *)

Section Coverage.
Context {rt : GoRuntime}.

(** ** Runs of the loop *)

Lemma fetches_spec siteURL apiKey ans flow :
  fetches siteURL apiKey ans flow ->
  url.Parse siteURL = None /\ fetched ans = (Some flow, None).
Proof.
  unfold fetches. rewrite retrieve_spec.
  destruct (url.Parse siteURL); simpl; [discriminate|].
  intros H. by simplify_eq.
Qed.

Lemma cycle_fetches site siteURL apiKey ans flow st :
  fetches siteURL apiKey ans flow ->
  utf8.ValidString site = true ->
  cycle site siteURL apiKey ans st
  = (Return tt,
     addEvents [EvSleep (time_Second * 60)]
       (setAll site flow (addEvents [EvDo (requestFor siteURL apiKey); EvClose] st))).
Proof.
  intros [Hp Hf]%fetches_spec Hu.
  rewrite cycle_spec, Hp. cbv zeta. rewrite Hf, Hu.
  by rewrite (closing_response _ _ Hf).
Qed.

(** The loop over two lists of answers is the loop over the first followed
    by the loop over the second. *)
Lemma collector_app site siteURL apiKey l1 l2 st :
  collector site siteURL apiKey (l1 ++ l2) st
  = (collector site siteURL apiKey l1 ;; collector site siteURL apiKey l2) st.
Proof.
  revert st. induction l1 as [|ans l1 IH]; intros st; simpl; [reflexivity|].
  unfold bind.
  destruct (cycle site siteURL apiKey ans st) as [[[]| |] st1]; [|reflexivity..].
  rewrite IH. reflexivity.
Qed.

(** The events of [n] successful rounds hold [n] requests and [n] pauses of
    60 seconds, each after its request. *)
Lemma collector_successes site siteURL apiKey answers :
  utf8.ValidString site = true ->
  allFetch siteURL apiKey answers ->
  forall st,
    exists st',
      collector site siteURL apiKey answers st = (Return tt, st')
      /\ registry st' = registry st
      /\ exists evs,
           events st' = events st ++ evs
           /\ requests evs = repeat (requestFor siteURL apiKey) (length answers)
           /\ ticks evs
              = flat_map (fun _ => [fetch; pause (time_Second * 60)]) answers.
Proof.
  intros Hu. induction 1 as [|ans answers [flow Hans] Hrest IH]; intros st.
  { exists st. split; [reflexivity|]. split; [reflexivity|].
    exists []. by rewrite app_nil_r. }
  simpl. unfold bind. rewrite (cycle_fetches _ _ _ _ _ _ Hans Hu).
  match goal with
  | |- context [collector _ _ _ answers ?s] =>
      destruct (IH s) as (st' & Hc & Hr & evs & Hev & Hreq & Hti)
  end.
  exists st'. split; [exact Hc|]. split; [by rewrite Hr|].
  exists ([EvDo (requestFor siteURL apiKey); EvClose] ++ writes site flow
          ++ [EvSleep (time_Second * 60)] ++ evs).
  split.
  - rewrite Hev, events_addEvents, events_setAll, events_addEvents.
    by rewrite <- !app_assoc.
  - split.
    + rewrite !requests_app, requests_writes, Hreq. reflexivity.
    + rewrite !ticks_app, ticks_writes, Hti. reflexivity.
Qed.

(** X1.  After any number of successful rounds, from any state, the loop is
    still running and every published gauge holds the reading of the last
    snapshot; the rounds have sent one request each, and each request is
    followed by one pause of 60 seconds. *)
Theorem loop_holds_last_snapshot site siteURL apiKey earlier ans flow st :
  utf8.ValidString site = true ->
  allFetch siteURL apiKey earlier ->
  fetches siteURL apiKey ans flow ->
  exists st',
    collector site siteURL apiKey (earlier ++ [ans]) st = (Return tt, st')
    /\ (forall m, In m published ->
          gaugeValue st' (gaugeName m) [site] = Some (reading m flow))
    /\ exists evs,
         events st' = events st ++ evs
         /\ requests evs = repeat (requestFor siteURL apiKey) (S (length earlier))
         /\ ticks evs
            = flat_map (fun _ => [fetch; pause (time_Second * 60)]) (earlier ++ [ans]).
Proof.
  intros Hu Hearlier Hans.
  assert (allFetch siteURL apiKey (earlier ++ [ans])) as Hall.
  { apply Forall_app. split; [done|]. constructor; [eauto|constructor]. }
  destruct (collector_successes _ _ _ _ Hu Hall st)
    as (st' & Hc & _ & evs & Hev & Hreq & Hti).
  exists st'. split; [exact Hc|]. split.
  - intros m Hm. rewrite collector_app in Hc. unfold bind in Hc.
    destruct (collector_successes _ _ _ _ Hu Hearlier st) as (st1 & Hc1 & _).
    rewrite Hc1 in Hc. simpl in Hc. unfold bind in Hc.
    rewrite (cycle_fetches _ _ _ _ _ _ Hans Hu) in Hc. unfold ret in Hc.
    injection Hc as <-.
    by rewrite gaugeValue_addEvents, gaugeValue_setAll.
  - exists evs. split; [exact Hev|]. split; [|exact Hti].
    rewrite Hreq, length_app. simpl. by rewrite Nat.add_1_r.
Qed.

Lemma fetch_error_spec siteURL apiKey ans e :
  (retrieveEnergyFlow ans siteURL apiKey initial).1 = Return (None, Some e) ->
  url.Parse siteURL = None /\ fetched ans = (None, Some e).
Proof.
  rewrite retrieve_spec. destruct (url.Parse siteURL); simpl; [discriminate|].
  intros H. by simplify_eq.
Qed.

(** X2.  The loop stops at the first fetch that returns an error: after the
    successful rounds before it, the process logs the error and exits with
    status 1; the answers after it are never asked for (one request per
    round up to the failing one, and the same end whatever follows), and the
    gauges are left as the last successful round has set them. *)
Theorem loop_stops_at_first_error site siteURL apiKey earlier bad e st :
  utf8.ValidString site = true ->
  allFetch siteURL apiKey earlier ->
  (retrieveEnergyFlow bad siteURL apiKey initial).1 = Return (None, Some e) ->
  exists st1 st',
    collector site siteURL apiKey earlier st = (Return tt, st1)
    /\ (forall rest,
          collector site siteURL apiKey (earlier ++ bad :: rest) st = (Exit 1, st'))
    /\ vectors st' = vectors st1
    /\ exists evs,
         events st' = events st ++ evs
         /\ length (requests evs) = S (length earlier)
         /\ last evs = Some (EvLog ("Failed to collect metrics: " +:+ Error e)).
Proof.
  intros Hu Hearlier [Hp Hf]%fetch_error_spec.
  destruct (collector_successes _ _ _ _ Hu Hearlier st)
    as (st1 & Hc1 & _ & evs & Hev & Hreq & _).
  assert (cycle site siteURL apiKey bad st1
          = (Exit 1, addEvents [EvLog ("Failed to collect metrics: " +:+ Error e)]
                       (addEvents (EvDo (requestFor siteURL apiKey) :: closing bad) st1)))
    as Hbad.
  { rewrite cycle_spec, Hp. cbv zeta. by rewrite Hf. }
  exists st1, (addEvents [EvLog ("Failed to collect metrics: " +:+ Error e)]
                 (addEvents (EvDo (requestFor siteURL apiKey) :: closing bad) st1)).
  split; [exact Hc1|]. split; [|split; [reflexivity|]].
  - intros rest. rewrite collector_app. unfold bind at 1. rewrite Hc1.
    simpl. apply bind_Exit. exact Hbad.
  - exists (evs ++ (EvDo (requestFor siteURL apiKey) :: closing bad)
             ++ [EvLog ("Failed to collect metrics: " +:+ Error e)]).
    split; [|split].
    + rewrite !events_addEvents, Hev. by rewrite <- !app_assoc.
    + rewrite !requests_app, Hreq, !length_app, repeat_length.
      change (requests (EvDo (requestFor siteURL apiKey) :: closing bad))
        with (requestFor siteURL apiKey :: requests (closing bad)).
      rewrite requests_closing. simpl. lia.
    + rewrite app_assoc. apply last_snoc.
Qed.

(** ** The series of the gauges *)

Lemma gaugeValue_setGauge_inv name lvs v st name' lvs' v' :
  gaugeValue (setGauge name lvs v st) name' lvs' = Some v' ->
  (name' = name /\ lvs' = lvs) \/ gaugeValue st name' lvs' = Some v'.
Proof.
  destruct (decide (name = name')) as [<-|Hn];
    [destruct (decide (lvs = lvs')) as [<-|Hl]|].
  - by left.
  - rewrite gaugeValue_setGauge_ne by (by right). by right.
  - rewrite gaugeValue_setGauge_ne by (by left). by right.
Qed.

Lemma writes_series site flow (l : list MetricField) :
  forall st name lvs v,
    gaugeValue
      (fold_left (fun s m => setGauge (gaugeName m) [site] (reading m flow) s) l st)
      name lvs = Some v ->
    (In name (map gaugeName l) /\ lvs = [site]) \/ gaugeValue st name lvs = Some v.
Proof.
  induction l as [|m l IH]; intros st name lvs v H; simpl in H; [by right|].
  apply IH in H as [[Hin ->]|H].
  - left. split; [by right|done].
  - apply gaugeValue_setGauge_inv in H as [[-> ->]|H]; [|by right].
    left. split; [by left|done].
Qed.

(** A round creates no series but those of the published gauges for the
    site. *)
Lemma cycle_series site siteURL apiKey ans st name lvs v :
  gaugeValue (cycle site siteURL apiKey ans st).2 name lvs = Some v ->
  (In name (map gaugeName published) /\ lvs = [site]) \/ gaugeValue st name lvs = Some v.
Proof.
  rewrite cycle_spec. destruct (url.Parse siteURL); [by right|]. cbv zeta.
  destruct (fetched ans) as [[flow|] [e|]]; try (by right).
  destruct (utf8.ValidString site); [|by right].
  simpl. rewrite gaugeValue_addEvents. intros H.
  apply writes_series in H as [H|H]; [by left|by right].
Qed.

Lemma collector_series site siteURL apiKey answers :
  forall st name lvs v,
    gaugeValue (collector site siteURL apiKey answers st).2 name lvs = Some v ->
    (In name (map gaugeName published) /\ lvs = [site]) \/ gaugeValue st name lvs = Some v.
Proof.
  induction answers as [|ans rest IH]; intros st name lvs v H; [by right|].
  simpl in H. unfold bind in H.
  destruct (cycle site siteURL apiKey ans st) as [[[]| |] st1] eqn:Hc; simpl in H.
  - apply IH in H as [H|H]; [by left|].
    apply (cycle_series site siteURL apiKey ans st). by rewrite Hc.
  - apply (cycle_series site siteURL apiKey ans st). by rewrite Hc.
  - apply (cycle_series site siteURL apiKey ans st). by rewrite Hc.
Qed.

Lemma cycle_registry site siteURL apiKey ans st :
  registry (cycle site siteURL apiKey ans st).2 = registry st.
Proof.
  rewrite cycle_spec. destruct (url.Parse siteURL); [done|]. cbv zeta.
  destruct (fetched ans) as [[flow|] [e|]]; try done.
  by destruct (utf8.ValidString site).
Qed.

Lemma collector_registry site siteURL apiKey answers :
  forall st, registry (collector site siteURL apiKey answers st).2 = registry st.
Proof.
  induction answers as [|ans rest IH]; intros st; [done|].
  simpl. unfold bind.
  pose proof (cycle_registry site siteURL apiKey ans st) as Hr.
  destruct (cycle site siteURL apiKey ans st) as [[[]| |] st1]; simpl in *;
    [by rewrite IH|done..].
Qed.

Lemma series_from_serving cfg answers name lvs v :
  gaugeValue (goroutine cfg answers (serving cfg)).2 name lvs = Some v ->
  (In name (map gaugeName published) /\ lvs = [siteID cfg])
  \/ (name = fqName errCnt /\ v = 0%float
      /\ (lvs = ["gathering"] \/ lvs = ["encoding"])).
Proof.
  intros H. apply collector_series in H as [H|H]; [by left|]. right.
  unfold gaugeValue, children, serving, handlerVectors in H. simpl in H.
  destruct (decide (name = fqName errCnt)) as [->|Hn].
  - rewrite lookup_singleton_eq in H. simpl in H.
    apply lookup_insert_Some in H as [[<- <-]|[_ H]]; [by auto|].
    apply lookup_singleton_Some in H as [<- <-]. by auto.
  - rewrite lookup_singleton_ne in H by done. simpl in H.
    by rewrite lookup_empty in H.
Qed.

Lemma not_published_name name :
  name = fqName errCnt \/ name = fqName powerConsumption ->
  ~ In name (map gaugeName published).
Proof.
  intros [->| ->] Hin; vm_compute in Hin;
    repeat (destruct Hin as [Hin|Hin]; [discriminate Hin|]); destruct Hin.
Qed.

(** X3.  In every state that the loop reaches from the state in which
    [main] serves, whatever the transport answers: a series of a registered
    vector is a series of one of the nine published gauges for the
    configured site, or one of the two series of the error counter of the
    handler, still at 0; the gauge [ntuity_power_consumption], which is
    registered, never has a series; and the registry is unchanged. *)
Theorem only_site_series cfg answers :
  let st' := (goroutine cfg answers (serving cfg)).2 in
  (forall name lvs v,
     gaugeValue st' name lvs = Some v ->
     (In name (map gaugeName published) /\ lvs = [siteID cfg])
     \/ (name = fqName errCnt /\ v = 0%float
         /\ (lvs = ["gathering"] \/ lvs = ["encoding"])))
  /\ (forall lvs, gaugeValue st' (fqName powerConsumption) lvs = None)
  /\ registry st' = errCnt :: tenVectors.
Proof.
  intros st'. split; [apply series_from_serving|]. split.
  - intros lvs.
    destruct (gaugeValue st' (fqName powerConsumption) lvs) as [v|] eqn:E; [|done].
    apply series_from_serving in E as [[Hin _]|[Hn _]].
    + by apply not_published_name in Hin; [|right].
    + vm_compute in Hn. discriminate Hn.
  - unfold st', goroutine. by rewrite collector_registry.
Qed.

(** ** What a scrape shows after a round *)

Lemma vectors_addEvents evs st : vectors (addEvents evs st) = vectors st.
Proof. reflexivity. Qed.

Lemma cycle_vectors_other site siteURL apiKey ans st name :
  ~ In name (map gaugeName published) ->
  vectors (cycle site siteURL apiKey ans st).2 !! name = vectors st !! name.
Proof.
  intros Hn. rewrite cycle_spec. destruct (url.Parse siteURL); [done|]. cbv zeta.
  destruct (fetched ans) as [[flow|] [e|]]; try done.
  destruct (utf8.ValidString site); [|done].
  cbn [snd]. rewrite vectors_addEvents, vectors_setAll_other by done.
  by rewrite vectors_addEvents.
Qed.

Lemma collector_vectors_other site siteURL apiKey answers name :
  ~ In name (map gaugeName published) ->
  forall st,
    vectors (collector site siteURL apiKey answers st).2 !! name = vectors st !! name.
Proof.
  intros Hn. induction answers as [|ans rest IH]; intros st; [done|].
  simpl. unfold bind.
  pose proof (cycle_vectors_other site siteURL apiKey ans st name Hn) as Hv.
  destruct (cycle site siteURL apiKey ans st) as [[[]| |] st1]; simpl in *;
    [by rewrite IH|done..].
Qed.

Lemma collector_last site siteURL apiKey earlier ans flow st m :
  utf8.ValidString site = true ->
  allFetch siteURL apiKey earlier ->
  fetches siteURL apiKey ans flow ->
  In m published ->
  gaugeValue (collector site siteURL apiKey (earlier ++ [ans]) st).2 (gaugeName m) [site]
  = Some (reading m flow).
Proof.
  intros Hu Hearlier Hans Hm. rewrite collector_app. unfold bind.
  destruct (collector_successes _ _ _ _ Hu Hearlier st) as (st1 & -> & _).
  simpl. unfold bind. rewrite (cycle_fetches _ _ _ _ _ _ Hans Hu). simpl.
  by rewrite gaugeValue_addEvents, gaugeValue_setAll.
Qed.

(** X7.  What a scrape shows once the loop has made a round: after any
    number of successful rounds from the state in which [main] serves, the
    handler answers with status 200 and with ten families (in an order
    that is not represented): its own error counter, and one family for
    each of the nine published gauges, which holds a single series, the one
    of the configured site, with the reading of the last snapshot.  No
    family of [ntuity_power_consumption] is among them, and no series of an
    earlier snapshot or of another site. *)
Theorem scrape_after_rounds cfg earlier ans flow :
  utf8.ValidString (siteID cfg) = true ->
  allFetch (siteURL_of cfg) (os_Getenv cfg "NTUITY_API_KEY") earlier ->
  fetches (siteURL_of cfg) (os_Getenv cfg "NTUITY_API_KEY") ans flow ->
  (ServeMetrics (goroutine cfg (earlier ++ [ans]) (serving cfg)).2).1 = 200
  /\ Permutation
       (ServeMetrics (goroutine cfg (earlier ++ [ans]) (serving cfg)).2).2
       ({| family := errCnt;
           metrics := map_to_list (children (serving cfg) (fqName errCnt)) |}
        :: zip_with
             (fun c m => {| family := c; metrics := [([siteID cfg], reading m flow)] |})
             (tail tenVectors) published).
Proof.
  intros Hu Hearlier Hans. split; [reflexivity|].
  match goal with |- Permutation ?l ?r => assert (l = r) as ->; [|reflexivity] end.
  set (st' := (goroutine cfg (earlier ++ [ans]) (serving cfg)).2).
  assert (registry st' = errCnt :: tenVectors) as Hreg.
  { unfold st', goroutine. by rewrite collector_registry. }
  assert (forall name,
            name = fqName errCnt \/ name = fqName powerConsumption ->
            children st' name = children (serving cfg) name) as Hother.
  { intros name Hn. unfold children, st', goroutine.
    by rewrite collector_vectors_other by by apply not_published_name. }
  assert (forall m, In m published ->
            children st' (gaugeName m) = {[ [siteID cfg] := reading m flow ]}) as Hm.
  { intros m Hin. apply map_eq. intros lvs.
    destruct (decide (lvs = [siteID cfg])) as [->|Hl].
    - rewrite lookup_singleton_eq.
      by apply (collector_last _ _ _ _ _ _ _ _ Hu Hearlier Hans).
    - rewrite lookup_singleton_ne by done.
      destruct (children st' (gaugeName m) !! lvs) as [v|] eqn:E; [|done].
      apply series_from_serving in E as [[_ ->]|[Hn _]]; [done|].
      destruct m; vm_compute in Hn; discriminate Hn. }
  unfold ServeMetrics. cbn [snd]. unfold Gather. fold st'.
  rewrite Hreg. unfold tenVectors. cbn [map].
  rewrite (Hother (fqName errCnt)) by by left.
  rewrite (Hother (fqName powerConsumption)) by by right.
  assert (forall c m, In m published -> fqName c = gaugeName m ->
            map_to_list (children st' (fqName c)) = [([siteID cfg], reading m flow)])
    as Hc.
  { intros c m Hin ->. by rewrite (Hm m Hin), map_to_list_singleton. }
  rewrite (Hc powerConsumptionCalc F_PowerConsumptionCalc),
    (Hc powerProduction F_PowerProduction),
    (Hc powerStorage F_PowerStorage),
    (Hc powerGrid F_PowerGrid),
    (Hc powerChargingStations F_PowerChargingstations),
    (Hc powerHeating F_PowerHeating),
    (Hc powerAppliances F_PowerAppliances),
    (Hc stateOfCharge F_StateOfCharge),
    (Hc selfSufficiency F_SelfSufficiency);
    try reflexivity; try (unfold published; simpl; tauto).
Qed.

(** ** A site identifier that cannot be used *)

Lemma unusable_site_round site siteURL apiKey ans st :
  utf8.ValidString site = false \/ url.Parse siteURL <> None ->
  exists out st1,
    cycle site siteURL apiKey ans st = (out, st1)
    /\ out <> Return tt
    /\ vectors st1 = vectors st
    /\ exists evs, events st1 = events st ++ evs /\ (length (requests evs) <= 1)%nat.
Proof.
  intros Hsite. rewrite cycle_spec.
  destruct (url.Parse siteURL) as [e|] eqn:Hp.
  { eexists _, _. split; [reflexivity|]. split; [done|]. split; [done|].
    exists []. rewrite app_nil_r. split; [done|]. simpl. lia. }
  cbv zeta.
  assert (length (requests (EvDo (requestFor siteURL apiKey) :: closing ans)) <= 1)%nat
    as Hone.
  { change (requests (EvDo (requestFor siteURL apiKey) :: closing ans))
      with (requestFor siteURL apiKey :: requests (closing ans)).
    rewrite requests_closing. simpl. lia. }
  destruct (fetched ans) as [[flow|] [e|]].
  - eexists _, _. split; [reflexivity|]. split; [done|]. split; [done|].
    exists ((EvDo (requestFor siteURL apiKey) :: closing ans)
            ++ [EvLog ("Failed to collect metrics: " +:+ Error e)]).
    split; [by rewrite !events_addEvents, <- app_assoc|].
    rewrite requests_app, length_app. simpl length at 2. lia.
  - destruct Hsite as [->|Hsite]; [|done].
    eexists _, _. split; [reflexivity|]. split; [done|]. split; [done|].
    exists (EvDo (requestFor siteURL apiKey) :: closing ans). by split.
  - eexists _, _. split; [reflexivity|]. split; [done|]. split; [done|].
    exists ((EvDo (requestFor siteURL apiKey) :: closing ans)
            ++ [EvLog ("Failed to collect metrics: " +:+ Error e)]).
    split; [by rewrite !events_addEvents, <- app_assoc|].
    rewrite requests_app, length_app. simpl length at 2. lia.
  - eexists _, _. split; [reflexivity|]. split; [done|]. split; [done|].
    exists (EvDo (requestFor siteURL apiKey) :: closing ans). by split.
Qed.

(** X14.  With a site identifier that is not valid UTF-8, or one for which
    the URL does not parse, the exporter never publishes anything: whatever
    the transport answers, the loop does not get through its first round
    (it panics, or exits on a fetch error), no gauge is ever written, and at
    most one request is sent. *)
Theorem unusable_site_never_publishes site siteURL apiKey answers st :
  utf8.ValidString site = false \/ url.Parse siteURL <> None ->
  let r := collector site siteURL apiKey answers st in
  vectors r.2 = vectors st
  /\ (answers <> [] -> r.1 <> Return tt)
  /\ exists evs, events r.2 = events st ++ evs /\ (length (requests evs) <= 1)%nat.
Proof.
  intros Hsite r. unfold r. destruct answers as [|ans rest].
  { split; [done|]. split; [done|]. exists []. rewrite app_nil_r. split; [done|].
    simpl. lia. }
  destruct (unusable_site_round site siteURL apiKey ans st Hsite)
    as (out & st1 & Hc & Hout & Hv & Hev).
  simpl. unfold bind. rewrite Hc.
  destruct out as [[]| |]; [done|..]; (split; [exact Hv|]; split; [done|exact Hev]).
Qed.

(** ** Where the API key goes *)

Lemma redact_request siteURL key1 key2 :
  redact (EvDo (requestFor siteURL key1)) = redact (EvDo (requestFor siteURL key2)).
Proof.
  unfold redact, requestFor. simpl. by f_equal.
Qed.

Lemma sameButCredential_addEvents evs1 evs2 st1 st2 :
  map redact evs1 = map redact evs2 ->
  sameButCredential st1 st2 ->
  sameButCredential (addEvents evs1 st1) (addEvents evs2 st2).
Proof.
  intros Hevs (Hv & Hr & He). split; [exact Hv|]. split; [exact Hr|].
  rewrite !events_addEvents, !map_app. by rewrite Hevs, He.
Qed.

Lemma vectors_setGauge_congr name lvs v st1 st2 :
  vectors st1 = vectors st2 ->
  vectors (setGauge name lvs v st1) = vectors (setGauge name lvs v st2).
Proof. intros H. unfold setGauge, children. simpl. by rewrite H. Qed.

Lemma sameButCredential_setAll site flow st1 st2 :
  sameButCredential st1 st2 ->
  sameButCredential (setAll site flow st1) (setAll site flow st2).
Proof.
  intros (Hv & Hr & He). split; [|split].
  - unfold setAll. clear Hr He. revert st1 st2 Hv.
    induction published as [|m l IH]; intros st1 st2 Hv; [exact Hv|].
    simpl. apply IH. by apply vectors_setGauge_congr.
  - by rewrite !registry_setAll.
  - rewrite !events_setAll, !map_app. by rewrite He.
Qed.

Lemma cycle_sameButCredential site siteURL key1 key2 ans st1 st2 :
  sameButCredential st1 st2 ->
  (cycle site siteURL key1 ans st1).1 = (cycle site siteURL key2 ans st2).1
  /\ sameButCredential (cycle site siteURL key1 ans st1).2
       (cycle site siteURL key2 ans st2).2.
Proof.
  intros H. rewrite !cycle_spec. destruct (url.Parse siteURL); [by split|]. cbv zeta.
  assert (sameButCredential
            (addEvents (EvDo (requestFor siteURL key1) :: closing ans) st1)
            (addEvents (EvDo (requestFor siteURL key2) :: closing ans) st2)) as H1.
  { apply sameButCredential_addEvents; [|exact H].
    rewrite !map_cons. by rewrite (redact_request siteURL key1 key2). }
  destruct (fetched ans) as [[flow|] [e|]].
  - split; [done|]. by apply sameButCredential_addEvents.
  - destruct (utf8.ValidString site); [|by split].
    split; [done|]. apply sameButCredential_addEvents; [done|].
    by apply sameButCredential_setAll.
  - split; [done|]. by apply sameButCredential_addEvents.
  - by split.
Qed.

(** X15.  The API key goes into the [Authorization] header of the requests
    and nowhere else: for the same answers of the transport, two runs of
    the loop with two keys end in the same way, with the same gauges and
    the same registry, and their events (the log lines among them) are the
    same once the [Authorization] header is taken out of the requests. *)
Theorem api_key_only_in_requests site siteURL key1 key2 answers st :
  let r1 := collector site siteURL key1 answers st in
  let r2 := collector site siteURL key2 answers st in
  r1.1 = r2.1 /\ sameButCredential r1.2 r2.2.
Proof.
  cbv zeta.
  assert (sameButCredential st st) as H by by repeat split.
  revert H. generalize st at 1 3 5. generalize st.
  induction answers as [|ans rest IH]; intros st2 st1 H; [by split|].
  simpl. unfold bind.
  destruct (cycle_sameButCredential site siteURL key1 key2 ans st1 st2 H) as [Ho Hs].
  destruct (cycle site siteURL key1 ans st1) as [o1 s1].
  destruct (cycle site siteURL key2 ans st2) as [o2 s2].
  simpl in Ho, Hs. subst o2.
  destruct o1 as [[]| |]; [by apply IH|by split..].
Qed.

(** ** Decoding, member by member *)

Lemma object_EnergyFlow_app l1 l2 :
  forall flow saved,
    object_EnergyFlow (l1 ++ l2) flow saved
    = match object_EnergyFlow l1 flow saved with
      | inl e => inl e
      | inr (flow', saved') => object_EnergyFlow l2 flow' saved'
      end.
Proof.
  induction l1 as [|[key j] l1 IH]; intros flow saved; simpl; [reflexivity|].
  destruct (findField key) as [[m|c]|]; [| |apply IH].
  - destruct (store_MetricValue _ _ _ _) as [e|[mv s1]]; [reflexivity|]. apply IH.
  - destruct (store_int _ _ _ _) as [n s1]. apply IH.
Qed.

Lemma object_MetricValue_app path l1 l2 :
  forall mv saved,
    object_MetricValue path (l1 ++ l2) mv saved
    = match object_MetricValue path l1 mv saved with
      | inl e => inl e
      | inr (mv', saved') => object_MetricValue path l2 mv' saved'
      end.
Proof.
  induction l1 as [|[key j] l1 IH]; intros mv saved; simpl; [reflexivity|].
  destruct (nameMatches "value" key).
  - destruct (store_Value _ _ _ _) as [p s1]. apply IH.
  - destruct (nameMatches "time" key); [|apply IH].
    destruct (store_Time _ _) as [e|t]; [reflexivity|]. apply IH.
Qed.

Lemma unknown_members_skipped members :
  Forall (fun kv => findField kv.1 = None) members ->
  forall flow saved, object_EnergyFlow members flow saved = inr (flow, saved).
Proof.
  induction 1 as [|[key j] members Hkey _ IH]; intros flow saved; simpl; [reflexivity|].
  simpl in Hkey. rewrite Hkey. apply IH.
Qed.

Lemma reading_zero m : reading m zeroEnergyFlow = 0%float.
Proof. by destruct m. Qed.

(** X4.  The status of the response is never looked at: a response of any
    status whose body is the JSON text [null] or an object without a member
    for any field of [EnergyFlow] (as the error documents of an API are)
    counts as a snapshot without values, and the round sets the nine gauges
    to 0 and goes on. *)
Theorem unknown_body_publishes_zeros site siteURL apiKey code body st :
  url.Parse siteURL = None ->
  utf8.ValidString site = true ->
  (scan body = inr JNull
   \/ exists members,
        scan body = inr (JObject members)
        /\ Forall (fun kv => findField kv.1 = None) members) ->
  exists st',
    cycle site siteURL apiKey (response code body) st = (Return tt, st')
    /\ forall m, In m published -> gaugeValue st' (gaugeName m) [site] = Some 0%float.
Proof.
  intros Hp Hu Hbody.
  assert (json_Unmarshal body zeroEnergyFlow = inr zeroEnergyFlow) as Hd.
  { destruct Hbody as [H|(members & H & Hunknown)].
    - unfold json_Unmarshal. by rewrite H.
    - rewrite (json_Unmarshal_object _ _ _ H).
      by rewrite (unknown_members_skipped _ Hunknown). }
  eexists. split.
  - rewrite cycle_spec, Hp. cbv zeta. unfold fetched, response. simpl.
    rewrite Hd, Hu. reflexivity.
  - intros m Hm. rewrite gaugeValue_addEvents, gaugeValue_setAll by done.
    by rewrite reading_zero.
Qed.

Lemma store_int_rejects name j n saved :
  intAccepted j = false -> exists e, (store_int name j n saved).2 = Some e.
Proof.
  destruct j; simpl; try done; try (intros _; apply saveError_Some).
  destruct (ParseInt lit) as [k|]; simpl; [done|].
  intros _. apply saveError_Some.
Qed.

Lemma store_Time_rejects j t :
  timeAccepted j = false -> exists e, store_Time j t = inl e.
Proof.
  destruct j; simpl; try done; eauto.
  destruct (time_parse text); [eauto|done].
Qed.

Lemma time_is_not_value key :
  nameMatches "time" key = true -> nameMatches "value" key = false.
Proof.
  unfold nameMatches. intros H%String.eqb_eq. by rewrite <- H.
Qed.

(** A walk that goes on with a kept error does not end well. *)
Lemma kept_error_fails members flow e :
  match object_EnergyFlow members flow (Some e) with
  | inl _ => True
  | inr (_, saved) => is_Some saved
  end.
Proof.
  destruct (object_EnergyFlow members flow (Some e)) as [e'|[flow' saved]] eqn:E; [done|].
  apply object_EnergyFlow_kept in E as [e' ->]. eauto.
Qed.

(** X5.  The counters are never published, yet they can stop the exporter:
    when the body has a member for a counter whose value is neither [null]
    nor an integer literal of 64 bits (a fraction, an exponent, a string),
    the decoding returns an error, so the round logs it and exits with
    status 1 without a write to any gauge. *)
Theorem bad_counter_stops_exporter site siteURL apiKey code body l1 key j l2 c st :
  url.Parse siteURL = None ->
  scan body = inr (JObject (l1 ++ (key, j) :: l2)) ->
  findField key = Some (count c) ->
  intAccepted j = false ->
  exists e st',
    json_Unmarshal body zeroEnergyFlow = inl e
    /\ cycle site siteURL apiKey (response code body) st = (Exit 1, st')
    /\ vectors st' = vectors st.
Proof.
  intros Hp Hs Hk Hj.
  assert (exists e, json_Unmarshal body zeroEnergyFlow = inl e) as [e He].
  { rewrite (json_Unmarshal_object _ _ _ Hs), object_EnergyFlow_app.
    destruct (object_EnergyFlow l1 zeroEnergyFlow None) as [e|[flow1 s1]]; [eauto|].
    simpl. rewrite Hk.
    destruct (store_int_rejects (countTag c) j (getCount c flow1) s1 Hj) as [e1 E].
    destruct (store_int _ _ _ _) as [n s2]. simpl in E. subst s2.
    pose proof (kept_error_fails l2 (setCount c n flow1) e1) as Hk2.
    destruct (object_EnergyFlow l2 _ (Some e1)) as [e2|[flow2 [e2|]]]; eauto.
    by destruct Hk2. }
  exists e. eexists. split; [exact He|].
  rewrite cycle_spec, Hp. cbv zeta. unfold fetched, response. simpl. rewrite He.
  split; reflexivity.
Qed.

(** X6.  So can the times, which are never published either: when the
    object of a metric (also of the raw [power_consumption]) has a member
    [time] that is neither [null] nor a string that parses as a time, the
    decoding stops with an error and the round exits with status 1 without
    a write to any gauge. *)
Theorem bad_time_stops_exporter site siteURL apiKey code body
    l1 key i1 tkey tj i2 l2 m st :
  url.Parse siteURL = None ->
  scan body = inr (JObject (l1 ++ (key, JObject (i1 ++ (tkey, tj) :: i2)) :: l2)) ->
  findField key = Some (metric m) ->
  nameMatches "time" tkey = true ->
  timeAccepted tj = false ->
  exists e st',
    json_Unmarshal body zeroEnergyFlow = inl e
    /\ cycle site siteURL apiKey (response code body) st = (Exit 1, st')
    /\ vectors st' = vectors st.
Proof.
  intros Hp Hs Hk Ht Hj.
  assert (exists e, json_Unmarshal body zeroEnergyFlow = inl e) as [e He].
  { rewrite (json_Unmarshal_object _ _ _ Hs), object_EnergyFlow_app.
    destruct (object_EnergyFlow l1 zeroEnergyFlow None) as [e|[flow1 s1]]; [eauto|].
    simpl. rewrite Hk. rewrite object_MetricValue_app.
    destruct (object_MetricValue (metricTag m) i1 (getMetric m flow1) s1)
      as [e|[mv1 s2]]; [eauto|].
    simpl. rewrite (time_is_not_value _ Ht), Ht.
    destruct (store_Time_rejects tj (Time mv1) Hj) as [e1 ->]. eauto. }
  exists e. eexists. split; [exact He|].
  rewrite cycle_spec, Hp. cbv zeta. unfold fetched, response. simpl. rewrite He.
  split; reflexivity.
Qed.

(** X8.  The value that is published for a field is the one of the last
    member [value] of the last member for the field: when the decoding of a
    body succeeds whose last member is for a metric and ends with a member
    [value], that value is [null] and the field has no value, or it is a
    number that [ParseFloat] reads and the field holds it.  A string, a
    boolean, an array, an object or a number out of range at this place is
    never decoded with success. *)
Theorem last_value_wins body l1 key i1 vkey j m flow :
  scan body = inr (JObject (l1 ++ [(key, JObject (i1 ++ [(vkey, j)]))])) ->
  findField key = Some (metric m) ->
  nameMatches "value" vkey = true ->
  json_Unmarshal body zeroEnergyFlow = inr flow ->
  match j with
  | JNull => Value (getMetric m flow) = None
  | JNumber lit =>
      exists x, ParseFloat lit = Some x /\ Value (getMetric m flow) = Some x
  | _ => False
  end.
Proof.
  intros Hs Hk Hv. rewrite (json_Unmarshal_object _ _ _ Hs), object_EnergyFlow_app.
  destruct (object_EnergyFlow l1 zeroEnergyFlow None) as [e|[flow1 s1]]; [done|].
  simpl. rewrite Hk, object_MetricValue_app.
  destruct (object_MetricValue (metricTag m) i1 (getMetric m flow1) s1)
    as [e|[mv1 s2]]; [done|].
  simpl. rewrite Hv.
  destruct (store_Value (metricTag m) j (Value mv1) s2) as [p s3] eqn:E.
  assert (s3 = None -> flow = setMetric m {| Value := p; Time := Time mv1 |} flow1 ->
          match j with
          | JNull => Value (getMetric m flow) = None
          | JNumber lit =>
              exists x, ParseFloat lit = Some x /\ Value (getMetric m flow) = Some x
          | _ => False
          end) as Hend.
  { intros -> ->. rewrite getMetric_setMetric_eq. simpl.
    destruct j; simpl in E; try (by simplify_eq);
      try (destruct s2; simpl in E; by simplify_eq).
    destruct (ParseFloat lit) as [x|]; [simplify_eq; eauto|].
    destruct s2; simpl in E; by simplify_eq. }
  clear E. destruct s3 as [e|]; [done|]. intros H. apply Hend; [done|].
  by simplify_eq.
Qed.

Lemma tags_fold_distinct f f' : foldName (tag f) = foldName (tag f') -> f = f'.
Proof.
  destruct f as [[]|[]], f' as [[]|[]]; vm_compute; intros H;
    first [reflexivity | discriminate H].
Qed.

Lemma fields_complete f : In f fields.
Proof. destruct f as [[]|[]]; vm_compute; tauto. Qed.

(** X9.  The member names select the fields without ambiguity: a member is
    stored into a field exactly when its name equals the JSON name of the
    field after case folding, whatever the order in which the fields are
    tried; in particular the JSON name of each of the twenty-two fields
    selects that field, and a name that selects a counter selects no
    metric. *)
Theorem findField_unambiguous :
  (forall key f, findField key = Some f <-> nameMatches (tag f) key = true)
  /\ (forall f, findField (tag f) = Some f)
  /\ (forall key, findField key = None <-> forall f, nameMatches (tag f) key = false).
Proof.
  assert (forall key f, nameMatches (tag f) key = true -> findField key = Some f) as Hfind.
  { intros key f Hf. unfold findField.
    destruct (find (fun f0 => nameMatches (tag f0) key) fields) as [f0|] eqn:E.
    - apply find_some in E as [_ E]. f_equal. apply tags_fold_distinct.
      unfold nameMatches in *. apply String.eqb_eq in E, Hf. congruence.
    - pose proof (find_none _ _ E f (fields_complete f)) as Hn. simpl in Hn. congruence. }
  split; [|split].
  - intros key f. split; [apply findField_matches|apply Hfind].
  - intros f. apply Hfind. unfold nameMatches. apply String.eqb_refl.
  - intros key. split.
    + intros Hnone f. destruct (nameMatches (tag f) key) eqn:E; [|done].
      apply Hfind in E. congruence.
    + intros Hall. destruct (findField key) as [f|] eqn:E; [|done].
      apply findField_matches in E. by rewrite Hall in E.
Qed.

(** ** Starting the collector *)

Lemma find_app_None {A} (p : A -> bool) l1 l2 :
  find p l1 = None -> find p (l1 ++ l2) = find p l2.
Proof.
  induction l1 as [|a l1 IH]; simpl; [done|]. destruct (p a); [done|]. exact IH.
Qed.

Lemma MustRegister_registry cs :
  forall st st',
    MustRegister cs st = (Return tt, st') ->
    st' = {| vectors := vectors st; registry := registry st ++ cs; events := events st |}.
Proof.
  induction cs as [|c cs IH]; intros st st' H; simpl in H.
  - unfold ret in H. injection H as <-. rewrite app_nil_r. by destruct st.
  - unfold bind, Register in H.
    destruct (negb (validDesc c)); [done|].
    destruct (find _ (registry st)) as [c'|]; [by destruct (sameDimensions c c')|].
    apply IH in H. subst st'. simpl. by rewrite <- app_assoc.
Qed.

(** X10.  [startNtuityMetricsCollector] can start one loop for a registry:
    when a call has returned without error, a second call for the same
    registry panics in [MustRegister] at the first vector, with the text of
    the error for a collector that is registered already, before it starts
    a second loop. *)
Theorem second_start_panics cfg st st1 :
  startNtuityMetricsCollector cfg st = (Return None, st1) ->
  startNtuityMetricsCollector cfg st1
  = (Panic "duplicate metrics collector registration attempted", st1).
Proof.
  unfold startNtuityMetricsCollector. cbv zeta.
  destruct (len (os_Getenv cfg "NTUITY_API_KEY") =? 0); [done|].
  fold tenVectors. intros H. unfold bind at 1 in H.
  destruct (MustRegister tenVectors st) as [[[]| |] st2] eqn:Hreg; try done.
  assert (find (fun c' => String.eqb (fqName c') (fqName powerConsumption)) (registry st)
          = None) as Hfresh.
  { unfold tenVectors in Hreg. simpl in Hreg. unfold bind, Register in Hreg.
    destruct (negb (validDesc powerConsumption)); [done|].
    destruct (find _ (registry st)) as [c'|]; [|done].
    by destruct (sameDimensions powerConsumption c'). }
  apply MustRegister_registry in Hreg. subst st2.
  unfold bind, emit, ret in H. simpl in H. simplify_eq.
  unfold bind at 1. unfold tenVectors at 1. cbn [MustRegister]. unfold bind at 1.
  unfold Register. cbn [registry].
  rewrite (find_app_None _ _ _ Hfresh). reflexivity.
Qed.

(** ** The command line *)

(** X11.  The four spellings of the flag for the site are one: with an API
    key in the environment and a site identifier that is not empty, the
    program gets to serving on the default address [:8080] for the site,
    and on the address of a [-listen-address] flag when one is given.  The
    argument after [-site-id] is taken as it is, also when it starts with a
    minus sign. *)
Theorem site_flag_starts_exporter x key env args :
  x <> "" ->
  env !! "NTUITY_API_KEY" = Some key ->
  key <> "" ->
  In args [["-site-id"; x]; ["--site-id"; x]; ["-site-id=" +:+ x]; ["--site-id=" +:+ x]] ->
  main_from_args args env initial
  = (Return tt, serving {| addr := ":8080"; siteID := x; environ := env |})
  /\ (forall a,
        main_from_args ("-listen-address" :: a :: args) env initial
        = (Return tt, serving {| addr := a; siteID := x; environ := env |})
        /\ main_from_args (args ++ ["-listen-address"; a]) env initial
           = (Return tt, serving {| addr := a; siteID := x; environ := env |})).
Proof.
  intros Hx Hkey Hk Hargs.
  assert (forall a,
            main {| addr := a; siteID := x; environ := env |} initial
            = (Return tt, serving {| addr := a; siteID := x; environ := env |})) as Hmain.
  { intros a. apply main_serves; [done|]. unfold os_Getenv. simpl. by rewrite Hkey. }
  simpl in Hargs.
  destruct Hargs as [<-|[<-|[<-|[<-|[]]]]];
    (split; [|intros a; split]); apply Hmain.
Qed.

(** X12.  A flag that is not defined stops the program before it does
    anything: for every name other than [listen-address], [site-id], [help]
    and [h], an argument that gives it after one or two minus signs makes
    the program exit with status 2, without a log line of [main], a
    registration or a request, whatever follows and whatever the
    environment holds.  ([-site], which the README names, is such a
    flag.) *)
Theorem undefined_flag_exits n rest env st :
  flag.badSyntax n = false ->
  flag.split n = (n, None) ->
  n <> "listen-address" -> n <> "site-id" -> n <> "help" -> n <> "h" ->
  main_from_args (("-" +:+ n) :: rest) env st = (Exit 2, st)
  /\ main_from_args (("--" +:+ n) :: rest) env st = (Exit 2, st).
Proof.
  intros Hbad Hsplit H1 H2 H3 H4.
  assert (flag.lookup n = None) as Hlook.
  { unfold flag.lookup. apply String.eqb_neq in H1, H2. by rewrite H1, H2. }
  apply String.eqb_neq in H3, H4.
  destruct n as [|c n']; [done|].
  simpl in Hbad. apply orb_false_iff in Hbad as [Hc Hc'].
  assert (forall dash,
            flag.flagName dash = Some (String c n') ->
            main_from_args (dash :: rest) env st = (Exit 2, st)) as Hgo.
  { intros dash Hd. unfold main_from_args, flag.Parse. cbn [flag.parse].
    rewrite Hd. cbn [flag.badSyntax]. rewrite Hc, Hc'. cbn [orb].
    rewrite Hsplit, Hlook, H3, H4. reflexivity. }
  split; apply Hgo.
  - change (flag.flagName (String "-" (String c n')) = Some (String c n')).
    cbn [flag.flagName]. by rewrite Hc.
  - change (flag.flagName (String "-" (String "-" (String c n'))) = Some (String c n')).
    reflexivity.
Qed.

(** X13.  The flags end at the first argument that does not start with a
    minus sign: a site identifier given as a plain argument is no flag,
    and what follows it is not read either, so the program logs that no
    site was given and exits with status 1 before it registers, listens
    or asks for anything. *)
Theorem plain_argument_ends_flags s rest env :
  (forall t, s <> String "-" t) ->
  main_from_args (s :: rest) env initial
  = (Exit 1, addEvents [EvLog "No site ID given"] initial).
Proof.
  intros Hs. unfold main_from_args, flag.Parse. cbn [flag.parse].
  assert (flag.flagName s = None) as ->.
  { destruct s as [|c s']; [done|]. unfold flag.flagName.
    destruct (Ascii.eqb c "-") eqn:E.
    - apply Ascii.eqb_eq in E. subst c. by destruct (Hs s').
    - destruct c as [[] [] [] [] [] [] [] []]; try done. }
  by apply main_no_site.
Qed.

End Coverage.

(** ** Examples of the further properties *)

(** Two rounds with the example body: the gauge of the production holds
    5.2. *)
Lemma loop_holds_last_snapshot_witness :
  exists st',
    collector "X" example_url "secret" ([example_answer] ++ [example_answer]) initial
    = (Return tt, st')
    /\ gaugeValue st' "ntuity_power_production" ["X"] = Some 5.2%float.
Proof.
  destruct (loop_holds_last_snapshot (rt := example_runtime)
              "X" example_url "secret" [example_answer] example_answer example_flow initial)
    as (st' & Hc & Hg & _).
  - reflexivity.
  - constructor; [|constructor]. exists example_flow. vm_compute. reflexivity.
  - vm_compute. reflexivity.
  - exists st'. split; [exact Hc|]. apply (Hg F_PowerProduction). simpl. tauto.
Defined.

(** A round with the example body, then a body that is no JSON text: the
    process exits, and the answer after it changes nothing. *)
Lemma loop_stops_at_first_error_witness :
  exists st',
    collector "X" example_url "secret"
      ([example_answer] ++ malformed_answer :: [example_answer]) initial
    = (Exit 1, st').
Proof.
  destruct (loop_stops_at_first_error (rt := example_runtime)
              "X" example_url "secret" [example_answer] malformed_answer
              (json_SyntaxError "invalid character looking for beginning of value")
              initial)
    as (st1 & st' & _ & Hc & _).
  - reflexivity.
  - constructor; [|constructor]. exists example_flow. vm_compute. reflexivity.
  - vm_compute. reflexivity.
  - exists st'. apply Hc.
Defined.

(** An error document with status 401 is published as zeros. *)
Lemma unknown_body_publishes_zeros_witness :
  exists st',
    cycle (rt := sample_runtime) "X" example_url "secret" (response 401 error_body) initial
      = (Return tt, st')
    /\ gaugeValue st' "ntuity_power_grid" ["X"] = Some 0%float.
Proof.
  destruct (unknown_body_publishes_zeros (rt := sample_runtime)
              "X" example_url "secret" 401 error_body initial)
    as (st' & Hc & Hg).
  - vm_compute. reflexivity.
  - reflexivity.
  - right. exists [("message", JString "Unauthorized")]. split; [reflexivity|].
    constructor; [vm_compute; reflexivity|constructor].
  - exists st'. split; [exact Hc|]. apply (Hg F_PowerGrid). simpl. tauto.
Defined.

(** A counter with a fraction stops the exporter. *)
Lemma bad_counter_stops_exporter_witness :
  exists e st',
    json_Unmarshal (rt := sample_runtime) bad_counter_body zeroEnergyFlow = inl e
    /\ cycle (rt := sample_runtime) "X" example_url "secret" (response 200 bad_counter_body) initial
      = (Exit 1, st')
    /\ vectors st' = vectors initial.
Proof.
  apply (bad_counter_stops_exporter (rt := sample_runtime)
           "X" example_url "secret" 200 bad_counter_body
           [] "consumers_total_count" (JNumber "1.5") [] F_ConsumersTotalCount initial).
  - vm_compute. reflexivity.
  - reflexivity.
  - vm_compute. reflexivity.
  - vm_compute. reflexivity.
Defined.

(** A time that does not parse stops the exporter. *)
Lemma bad_time_stops_exporter_witness :
  exists e st',
    json_Unmarshal (rt := sample_runtime) bad_time_body zeroEnergyFlow = inl e
    /\ cycle (rt := sample_runtime) "X" example_url "secret" (response 200 bad_time_body) initial
      = (Exit 1, st')
    /\ vectors st' = vectors initial.
Proof.
  apply (bad_time_stops_exporter (rt := sample_runtime)
           "X" example_url "secret" 200 bad_time_body
           [] "power_grid" [] "time" (JString "yesterday") [] [] F_PowerGrid initial).
  - vm_compute. reflexivity.
  - reflexivity.
  - vm_compute. reflexivity.
  - vm_compute. reflexivity.
  - vm_compute. reflexivity.
Defined.

(** The scrape after one round with the example body. *)
Lemma scrape_after_rounds_witness :
  Permutation
    (map (fun mf => (fqName (family mf), map snd (metrics mf)))
       (ServeMetrics (goroutine example_config ([] ++ [example_answer])
                        (serving example_config)).2).2)
    [("promhttp_metric_handler_errors_total", [0%float; 0%float]);
     ("ntuity_power_consumption_calc", [0%float]);
     ("ntuity_power_production", [5.2%float]);
     ("ntuity_power_storage", [0%float]);
     ("ntuity_power_grid", [0%float]);
     ("ntuity_power_charging_stations", [0%float]);
     ("ntuity_power_heating", [0%float]);
     ("ntuity_power_appliances", [0%float]);
     ("ntuity_state_of_charge", [0%float]);
     ("ntuity_self_sufficiency", [0%float])].
Proof.
  destruct (scrape_after_rounds (rt := example_runtime)
              example_config [] example_answer example_flow) as [_ H].
  - reflexivity.
  - constructor.
  - vm_compute. reflexivity.
  - apply (Permutation_map (fun mf => (fqName (family mf), map snd (metrics mf)))) in H.
    exact H.
Defined.

(** A metric that comes twice, the second time under another case: the
    second value is the one that is kept. *)
Lemma last_value_wins_witness :
  exists x,
    ParseFloat (GoRuntime := sample_runtime) "5.2" = Some x
    /\ Value (getMetric F_PowerGrid repeated_flow) = Some x.
Proof.
  apply (last_value_wins (rt := sample_runtime) repeated_body
           [("power_grid", JObject [("value", JNull)])] "Power_Grid" [] "value"
           (JNumber "5.2") F_PowerGrid repeated_flow).
  - reflexivity.
  - vm_compute. reflexivity.
  - vm_compute. reflexivity.
  - vm_compute. reflexivity.
Defined.

(** A second start for the registry of the first. *)
Lemma second_start_panics_witness :
  startNtuityMetricsCollector example_config
    (startNtuityMetricsCollector example_config initial).2
  = (Panic "duplicate metrics collector registration attempted",
     (startNtuityMetricsCollector example_config initial).2).
Proof.
  apply (second_start_panics (rt := example_runtime) example_config initial
           (startNtuityMetricsCollector example_config initial).2).
  vm_compute. reflexivity.
Defined.

(** The site given with an equals sign. *)
Lemma site_flag_starts_exporter_witness :
  main_from_args ["-site-id=X"] {[ "NTUITY_API_KEY" := "secret" ]} initial
  = (Return tt, serving example_config).
Proof.
  destruct (site_flag_starts_exporter (rt := example_runtime)
              "X" "secret" {[ "NTUITY_API_KEY" := "secret" ]} ["-site-id=X"])
    as [H _].
  - discriminate.
  - reflexivity.
  - discriminate.
  - right. right. left. reflexivity.
  - exact H.
Defined.

(** The command line of the README. *)
Lemma undefined_flag_exits_witness :
  main_from_args ["-site"; "X"] {[ "NTUITY_API_KEY" := "secret" ]} initial
  = (Exit 2, initial).
Proof.
  destruct (undefined_flag_exits (rt := example_runtime)
              "site" ["X"] {[ "NTUITY_API_KEY" := "secret" ]} initial)
    as [H _].
  - reflexivity.
  - reflexivity.
  - discriminate.
  - discriminate.
  - discriminate.
  - discriminate.
  - exact H.
Defined.

(** The site as a plain argument before its flag. *)
Lemma plain_argument_ends_flags_witness :
  main_from_args ["X"; "-site-id"; "X"] {[ "NTUITY_API_KEY" := "secret" ]} initial
  = (Exit 1, addEvents [EvLog "No site ID given"] initial).
Proof.
  apply (plain_argument_ends_flags (rt := example_runtime)
           "X" ["-site-id"; "X"] {[ "NTUITY_API_KEY" := "secret" ]}).
  intros t. discriminate.
Defined.

(** The site identifier of one byte FF: nothing is written. *)
Lemma unusable_site_never_publishes_witness :
  vectors (collector invalid_site (fmt.Sprintf baseURL [invalid_site]) "secret"
             [example_answer; example_answer] initial).2
  = vectors initial.
Proof.
  pose proof (unusable_site_never_publishes (rt := example_runtime)
                invalid_site (fmt.Sprintf baseURL [invalid_site]) "secret"
                [example_answer; example_answer] initial) as H.
  cbv zeta in H. destruct H as [H _].
  - left. vm_compute. reflexivity.
  - exact H.
Defined.
